(** * Sudoku puzzle board: shallow embedding of [sudoku/sudoku.py]

    The Python class [Puzzle] owns a 9x9 grid ([self.board]), three derived
    dictionaries ([self.rows], [self.columns], [self.boxes]) and a mask of
    editable cells.  Its methods are embedded below as Rocq functions over
    an explicit state record; Python exceptions are an error result, and a
    method that mutates [self] is a function from the state to an outcome
    and the state left behind (the state is kept when an exception is
    raised, as the object is in Python). *)

From stdpp Require Import gmap list strings pretty.
From Stdlib Require Import ZArith Lia.

Local Open Scope Z_scope.

#[local] Set Warnings "-clear-no-such-hyp".

(** ** Exceptions and results *)

(** [InvalidValue], [FixedValue] and [ConflictValue] are the classes of
    [sudoku/exceptions.py]; [IndexError] and [KeyError] are the built-in
    exceptions of list indexing and dictionary lookup. *)
Inductive exn : Set :=
  | InvalidValue
  | FixedValue
  | ConflictValue
  | IndexError
  | KeyError.

Inductive result (A : Type) : Type :=
  | Ret (a : A)
  | Raise (e : exn).

Arguments Ret {A} a.
Arguments Raise {A} e.

#[global] Instance exn_eq_dec : EqDecision exn.
Proof. solve_decision. Defined.

#[global] Instance result_ret : MRet result := λ A a, Ret a.
#[global] Instance result_bind : MBind result := λ A B f m,
  match m with
  | Ret a => f a
  | Raise e => Raise e
  end.

#[global] Instance result_fmap : FMap result := λ A B f m,
  match m with
  | Ret a => Ret (f a)
  | Raise e => Raise e
  end.

(** ** Python lists, slices, dictionaries and sets *)

Module Py.

(** Position designated by the integer index [i] in a list of length
    [len]: negative indices count from the end. *)
Definition index (len : nat) (i : Z) : option nat :=
  if bool_decide (0 ≤ i < Z.of_nat len) then Some (Z.to_nat i)
  else if bool_decide (- Z.of_nat len ≤ i < 0) then Some (Z.to_nat (Z.of_nat len + i))
  else None.

(** [l[i]] *)
Definition getitem {A} (l : list A) (i : Z) : result A :=
  match index (length l) i with
  | Some n => match l !! n with Some x => Ret x | None => Raise IndexError end
  | None => Raise IndexError
  end.

(** [l[i] = x] *)
Definition setitem {A} (l : list A) (i : Z) (x : A) : result (list A) :=
  match index (length l) i with
  | Some n => Ret (<[n := x]> l)
  | None => Raise IndexError
  end.

(** Bound of a slice, clamped to the list. *)
Definition clamp (len : nat) (i : Z) : nat :=
  Z.to_nat (Z.min (Z.of_nat len) (Z.max 0 (if bool_decide (i < 0) then Z.of_nat len + i else i))).

(** [l[lo:hi]] *)
Definition slice {A} (l : list A) (lo hi : Z) : list A :=
  take (clamp (length l) hi - clamp (length l) lo) (drop (clamp (length l) lo) l).

(** [d[k]] for a dictionary with integer keys *)
Definition dict_get {A} (d : gmap Z A) (k : Z) : result A :=
  match d !! k with
  | Some x => Ret x
  | None => Raise KeyError
  end.

(** [len(set(l))] *)
Definition set_len (l : list Z) : nat := size (list_to_set l : gset Z).

(** [range(n)] *)
Definition range (n : nat) : list Z := Z.of_nat <$> seq 0 n.

End Py.

(** ** The board *)

(** [rows] is not a field: [get_row] returns the row object of
    [self.board] itself, so [self.rows[i]] and [self.board[i]] are one and
    the same list for every key [i] in [0..8], and neither the dictionary
    nor the outer list of the board is ever reassigned.  The rows of
    [board] are that shared store: reads and writes through [self.rows]
    go to it (see [rows_get] and [rows_setitem]).  [columns] and [boxes]
    hold lists of their own, built by a comprehension and by [+=] on a
    fresh list. *)
Record Puzzle : Type := mkPuzzle {
  board : list (list Z);
  columns : gmap Z (list Z);
  boxes : gmap Z (list Z);
  mask : list (list bool)
}.

(** [get_mask]: each cell is [val == 0]. *)
Definition get_mask (board : list (list Z)) : list (list bool) :=
  (λ lst : list Z, (λ val, bool_decide (val = 0)) <$> lst) <$> board.

(** [makeDict]: [d[i] = func(i)] for [i] in [range(9)]. *)
Definition makeDict {A} (func : Z → result A) : result (gmap Z A) :=
  foldl (λ acc i, d ← acc; v ← func i; mret (<[i := v]> d)) (Ret ∅) (Py.range 9).

(** [get_row]: [self.board[index]]. *)
Definition get_row (board : list (list Z)) (index : Z) : result (list Z) :=
  Py.getitem board index.

(** [get_column]: [[self.board[i][index] for i in range(9)]]. *)
Definition get_column (board : list (list Z)) (index : Z) : result (list Z) :=
  foldl (λ acc i, lst ← acc; row ← Py.getitem board i; v ← Py.getitem row index;
                  mret (lst ++ [v]))
        (Ret []) (Py.range 9).

(** [get_boxIndex]: [c//3 + (r//3 * 3)]. *)
Definition get_boxIndex (r c : Z) : Z := c / 3 + (r / 3 * 3).

(** [get_box]: three slices of three cells, row by row. *)
Definition get_box (board : list (list Z)) (index : Z) : result (list Z) :=
  let row := index / 3 * 3 in
  let column := index `mod` 3 * 3 in
  foldl (λ acc i, lst ← acc; brow ← Py.getitem board (row + i);
                  mret (lst ++ Py.slice brow column (column + 3)))
        (Ret []) (Py.range 3).

(** [__init__], from the grid that [json.load] returned.  The dictionary
    of rows is built first (it can raise); its values are the rows of the
    board themselves. *)
Definition init (grid : list (list Z)) : result Puzzle :=
  _ ← makeDict (get_row grid);
  cols ← makeDict (get_column grid);
  bxs ← makeDict (get_box grid);
  mret (mkPuzzle grid cols bxs (get_mask grid)).

(** [self.rows[i]]: a dictionary with the keys [0..8], whose value at [i]
    is row [i] of the board. *)
Definition rows_get (p : Puzzle) (i : Z) : result (list Z) :=
  if bool_decide (0 ≤ i ≤ 8) then Py.getitem (board p) i else Raise KeyError.

(** [[val for val in l if val != 0]] *)
Definition nonzero (l : list Z) : list Z := filter (λ val, val ≠ 0) l.

(** [len(l) != len(set(l))] *)
Definition has_repeat (l : list Z) : bool :=
  negb (bool_decide (length l = Py.set_len l)).

(** [is_valid]: reads the three dictionaries, never the grid. *)
Definition is_valid (row_index column_index : Z) (p : Puzzle) : result bool :=
  let box_index := get_boxIndex row_index column_index in
  row ← nonzero <$> rows_get p row_index;
  column ← nonzero <$> Py.dict_get (columns p) column_index;
  box ← nonzero <$> Py.dict_get (boxes p) box_index;
  if has_repeat row then mret false
  else if has_repeat column then mret false
  else if has_repeat box then mret false
  else mret true.

(** ** Methods that mutate the board *)

(** A method body: from the state of [self] to an outcome and the state
    it leaves.  An exception stops the body and keeps the writes made so
    far. *)
Definition M (A : Type) : Type := Puzzle → result A * Puzzle.

Definition ret {A} (a : A) : M A := λ p, (Ret a, p).

Definition bind {A B} (m : M A) (k : A → M B) : M B := λ p,
  match m p with
  | (Ret a, p') => k a p'
  | (Raise e, p') => (Raise e, p')
  end.

Definition raise {A} (e : exn) : M A := λ p, (Raise e, p).

(** An expression that only reads [self]. *)
Definition read {A} (f : Puzzle → result A) : M A := λ p, (f p, p).

(** An assignment whose target is computed from [self]. *)
Definition write (f : Puzzle → result Puzzle) : M unit := λ p,
  match f p with
  | Ret p' => (Ret (), p')
  | Raise e => (Raise e, p)
  end.

Notation "'let*' x := m 'in' k" := (bind m (λ x, k))
  (at level 10, x name, m at level 100, k at level 200, only parsing).
Notation "m ;;; k" := (bind m (λ _, k))
  (at level 100, k at level 200, right associativity, only parsing).

(** [self.board[r][c] = val] *)
Definition board_setitem (r c val : Z) (p : Puzzle) : result Puzzle :=
  row ← Py.getitem (board p) r;
  row' ← Py.setitem row c val;
  board' ← Py.setitem (board p) r row';
  mret (mkPuzzle board' (columns p) (boxes p) (mask p)).

(** [self.rows[r][c] = val]: the list found under key [r] is row [r] of
    the board, which is where the write lands. *)
Definition rows_setitem (r c val : Z) (p : Puzzle) : result Puzzle :=
  if bool_decide (0 ≤ r ≤ 8) then board_setitem r c val p else Raise KeyError.

(** [self.columns[k][i] = val] *)
Definition columns_setitem (k i val : Z) (p : Puzzle) : result Puzzle :=
  lst ← Py.dict_get (columns p) k;
  lst' ← Py.setitem lst i val;
  mret (mkPuzzle (board p) (<[k := lst']> (columns p)) (boxes p) (mask p)).

(** [self.boxes[k][i] = val] *)
Definition boxes_setitem (k i val : Z) (p : Puzzle) : result Puzzle :=
  lst ← Py.dict_get (boxes p) k;
  lst' ← Py.setitem lst i val;
  mret (mkPuzzle (board p) (columns p) (<[k := lst']> (boxes p)) (mask p)).

(** [update], statement by statement.  [Ret ()] is [return None]. *)
Definition update (r c val : Z) : M unit :=
  if negb (bool_decide (val ∈ [0; 1; 2; 3; 4; 5; 6; 7; 8; 9])) then raise InvalidValue
  else
  let* editable := read (λ p, mrow ← Py.getitem (mask p) r; Py.getitem mrow c) in
  if bool_decide (editable = false) then raise FixedValue
  else
  let* prev := read (λ p, brow ← Py.getitem (board p) r; Py.getitem brow c) in
  let box := c `mod` 3 + (r `mod` 3 * 3) in
  let b := get_boxIndex r c in
  write (rows_setitem r c val) ;;;
  write (columns_setitem c r val) ;;;
  write (boxes_setitem b box val) ;;;
  let* ok := read (is_valid r c) in
  if ok then
    write (board_setitem r c val) ;;;
    ret ()
  else
  write (rows_setitem r c prev) ;;;
  write (columns_setitem c r prev) ;;;
  write (boxes_setitem box b prev) ;;;
  raise ConflictValue.

(** [is_solved]: no row of the board contains [0]. *)
Definition is_solved (p : Puzzle) : bool :=
  forallb (λ row : list Z, negb (bool_decide (0 ∈ row))) (board p).

(** A sequence of calls to [update], each outcome recorded; the board
    lives on after a failed call. *)
Fixpoint run (calls : list (Z * Z * Z)) (p : Puzzle) : list (result unit) * Puzzle :=
  match calls with
  | [] => ([], p)
  | (r, c, val) :: rest =>
      let '(o, p') := update r c val p in
      let '(os, p'') := run rest p' in
      (o :: os, p'')
  end.

(** ** Boards used in the examples *)

(** A board as loaded from a grid; the second branch is never taken for
    the grids below (see [loaded_sample] and the like). *)
Definition loaded (grid : list (list Z)) : Puzzle :=
  match init grid with
  | Ret p => p
  | Raise _ => mkPuzzle grid ∅ ∅ (get_mask grid)
  end.

Definition sample_grid : list (list Z) :=
  [ [5;3;0;0;7;0;0;0;0];
    [6;0;0;1;9;5;0;0;0];
    [0;9;8;0;0;0;0;6;0];
    [8;0;0;0;6;0;0;0;3];
    [4;0;0;8;0;3;0;0;1];
    [7;0;0;0;2;0;0;0;6];
    [0;6;0;0;0;0;2;8;0];
    [0;0;0;4;1;9;0;0;5];
    [0;0;0;0;8;0;0;7;9] ].

(** The board of the specification's rollback test: row 0 is
    [5,0,0,0,0,0,0,0,0], every other cell is empty. *)
Definition corner_grid : list (list Z) :=
  [5;0;0;0;0;0;0;0;0] :: replicate 8 (replicate 9 0).

(** A single 5, at row 0 and column 3. *)
Definition lone_grid : list (list Z) :=
  [0;0;0;5;0;0;0;0;0] :: replicate 8 (replicate 9 0).

(** ** Notions used in the statements *)

(** Position of the cell within the list of its box (the local [box] of
    [update]). *)
Definition box_offset (r c : Z) : Z := c `mod` 3 + (r `mod` 3 * 3).

(** What [is_valid] returns on the three lists it reads. *)
Definition units_ok (row col bx : list Z) : bool :=
  negb (has_repeat (nonzero row)) && negb (has_repeat (nonzero col))
  && negb (has_repeat (nonzero bx)).

(** The board during the call, once the three dictionaries hold [val]
    at the cell. *)
Definition staged (r c val : Z) (brow col bx : list Z) (p : Puzzle) : Puzzle :=
  mkPuzzle (<[Z.to_nat r := <[Z.to_nat c := val]> brow]> (board p))
           (<[c := <[Z.to_nat r := val]> col]> (columns p))
           (<[get_boxIndex r c := <[Z.to_nat (box_offset r c) := val]> bx]> (boxes p))
           (mask p).

(** What [update] finds at the cell when it gets as far as the writes. *)
Record at_cell (r c : Z) (p : Puzzle) (brow col bx : list Z) (prev : Z) : Prop := {
  at_row : board p !! Z.to_nat r = Some brow;
  at_prev : brow !! Z.to_nat c = Some prev;
  at_col : columns p !! c = Some col;
  at_col_len : (Z.to_nat r < length col)%nat;
  at_box : boxes p !! get_boxIndex r c = Some bx;
  at_box_len : (Z.to_nat (box_offset r c) < length bx)%nat
}.

(** The mask marks the cell as editable, or as fixed. *)
Definition editable (r c : Z) (p : Puzzle) : Prop :=
  ∃ mrow, mask p !! Z.to_nat r = Some mrow ∧ mrow !! Z.to_nat c = Some true.

Definition fixed (r c : Z) (p : Puzzle) : Prop :=
  ∃ mrow, mask p !! Z.to_nat r = Some mrow ∧ mrow !! Z.to_nat c = Some false.

(** A method body that leaves the mask as it found it. *)
Definition keeps_mask {A} (m : M A) : Prop := ∀ p, mask (m p).2 = mask p.

(** A grid of nine rows of nine cells. *)
Definition grid9 (g : list (list Z)) : Prop :=
  length g = 9%nat ∧ Forall (λ row, length row = 9%nat) g.

(** The value at row [i], column [j]. *)
Definition cell (g : list (list Z)) (i j : nat) : option Z := g !! i ≫= (.!! j).

(** Row and column of the grid cell found at position [j] of box [k]. *)
Definition box_row (k : Z) (j : nat) : nat := (Z.to_nat (k / 3 * 3) + j / 3)%nat.
Definition box_col (k : Z) (j : nat) : nat := (Z.to_nat (k `mod` 3 * 3) + j `mod` 3)%nat.

(** The three dictionaries agree with the grid: under every key in
    [0..8], each holds what the accessor computes from the grid. *)
Definition synced (p : Puzzle) : Prop :=
  ∀ i, 0 ≤ i ≤ 8 →
    rows_get p i = get_row (board p) i ∧
    Py.dict_get (columns p) i = get_column (board p) i ∧
    Py.dict_get (boxes p) i = get_box (board p) i.

(** A unit is legal when its values other than zero are pairwise
    distinct. *)
Definition unit_legal (u : result (list Z)) : Prop :=
  match u with
  | Ret l => NoDup (nonzero l)
  | Raise _ => False
  end.

#[global] Instance unit_legal_dec u : Decision (unit_legal u).
Proof. destruct u; simpl; apply _. Defined.

(** A grid is legal when its nine rows, nine columns and nine boxes are. *)
Definition legal (g : list (list Z)) : Prop :=
  Forall (λ i, unit_legal (get_row g i) ∧ unit_legal (get_column g i)
               ∧ unit_legal (get_box g i)) (Py.range 9).

#[global] Instance legal_dec g : Decision (legal g).
Proof. unfold legal. apply _. Defined.



(** ** Shapes, digits and method contracts *)

(** A mask of nine rows of nine flags. *)
Definition mask9 (m : list (list bool)) : Prop :=
  length m = 9%nat ∧ Forall (λ row, length row = 9%nat) m.

(** A dictionary as [makeDict] builds it from a 9x9 grid: the keys are
    [0..8] and no other, each value is a list of nine cells. *)
Definition dict9 (d : gmap Z (list Z)) : Prop :=
  ∀ k, if bool_decide (0 ≤ k ≤ 8) then ∃ l, d !! k = Some l ∧ length l = 9%nat
       else d !! k = None.

(** The shape of a board built from a 9x9 grid. *)
Definition shaped (p : Puzzle) : Prop :=
  grid9 (board p) ∧ dict9 (columns p) ∧ dict9 (boxes p) ∧ mask9 (mask p).

(** Every cell of the grid is in [0,9]. *)
Definition digits (g : list (list Z)) : Prop :=
  Forall (Forall (λ v, 0 ≤ v ≤ 9)) g.

(** Contract of a method body: from a board that satisfies [P], the body
    either returns [a] and leaves a board that satisfies [Q a], or raises
    [e] and leaves a board that satisfies [E e]. *)
Definition hoare {A} (P : Puzzle → Prop) (m : M A)
    (Q : A → Puzzle → Prop) (E : exn → Puzzle → Prop) : Prop :=
  ∀ p, P p → match m p with
             | (Ret a, p') => Q a p'
             | (Raise e, p') => E e p'
             end.

(** What every call keeps: the shape of the board and the range of its
    cells. *)
Definition sound (p : Puzzle) : Prop := shaped p ∧ digits (board p).


(** The first nine rows exist and show at least [n] cells each. *)
Definition rows_reach (g : list (list Z)) (n : nat) : Prop :=
  ∀ i, (i < 9)%nat → ∃ row, g !! i = Some row ∧ (n ≤ length row)%nat.


(** Another cell of the row, of the column or of the box of [(r, c)]. *)
Definition peer (r c i j : Z) : Prop :=
  (i, j) ≠ (r, c) ∧ (i = r ∨ j = c ∨ get_boxIndex i j = get_boxIndex r c).

(** ** Rendering *)

(** The line feed, ["\n"]. *)
Definition newline : string := String (Ascii.ascii_of_nat 10) EmptyString.

(** [s * n] on strings. *)
Definition str_repeat (s : string) (n : nat) : string :=
  String.concat "" (replicate n s).

(** [f" {v} |"]: an integer is formatted in decimal. *)
Definition cell_text (v : Z) : string := " " +:+ pretty v +:+ " |".

(** ["\n" + "_" * 37 + "\n"] *)
Definition rule_text : string := newline +:+ str_repeat "_" 37 +:+ newline.

(** The text of one row: ["|"] and then each cell. *)
Definition row_text (brow : list Z) : string :=
  "|" +:+ String.concat "" (cell_text <$> brow).

(** [__str__]: the pieces are appended to a list and joined at the
    end; every cell is read from [self.board]. *)
Definition str (p : Puzzle) : result string :=
  s ← foldl (λ acc r,
        s ← acc;
        s ← foldl (λ acc i,
              s ← acc;
              brow ← Py.getitem (board p) r;
              v ← Py.getitem brow i;
              mret (s ++ [cell_text v]))
            (Ret (s ++ ["|"])) (Py.range 9);
        mret (s ++ [rule_text]))
      (Ret []) (Py.range 9);
  mret (String.concat "" s).

(** A grid that is filled in and legal. *)
Definition solved_grid : list (list Z) :=
  [ [5;3;4;6;7;8;9;1;2];
    [6;7;2;1;9;5;3;4;8];
    [1;9;8;3;4;2;5;6;7];
    [8;5;9;7;6;1;4;2;3];
    [4;2;6;8;5;3;7;9;1];
    [7;1;3;9;2;4;8;5;6];
    [9;6;1;5;3;7;2;8;4];
    [2;8;7;4;1;9;6;3;5];
    [3;4;5;2;8;6;1;7;9] ].

(** ** Tactics for the 9x9 geometry *)

(** Name the nine cells of a row of length nine. *)
Ltac explode_row row :=
  do 9 (destruct row as [|? row]; [discriminate|]); destruct row; [|discriminate].

(** Name the eighty-one cells of a 9x9 grid. *)
Ltac explode_grid g H :=
  let Hlen := fresh "Hlen" in
  let Hall := fresh "Hall" in
  destruct H as [Hlen Hall];
  do 9 (destruct g as [|? g]; [discriminate|]); (destruct g; [|discriminate]);
  clear Hlen;
  repeat match goal with
  | H : Forall _ (_ :: _) |- _ => apply Forall_cons in H as [? H]
  | H : Forall _ [] |- _ => clear H
  end;
  repeat match goal with
  | H : length ?row = 9%nat |- _ => explode_row row; clear H
  end.

(** One case for each index in [0..8]. *)
Ltac enum9 r H :=
  assert (r = 0 ∨ r = 1 ∨ r = 2 ∨ r = 3 ∨ r = 4 ∨ r = 5 ∨ r = 6 ∨ r = 7 ∨ r = 8)
    as [->|[->|[->|[->|[->|[->|[->|[->| ->]]]]]]]] by lia; clear H.

(** ** Facts about the Python layer *)

Section python_layer.
Context {A : Type}.
Implicit Types (l : list A) (i : Z) (x : A).

Lemma index_nonneg len i :
  0 ≤ i → Py.index len i = if bool_decide (i < Z.of_nat len) then Some (Z.to_nat i) else None.
Proof.
  intros Hi. unfold Py.index.
  repeat case_bool_decide; try reflexivity; lia.
Qed.

Lemma getitem_nonneg l i :
  0 ≤ i →
  Py.getitem l i = match l !! Z.to_nat i with Some x => Ret x | None => Raise IndexError end.
Proof.
  intros Hi. unfold Py.getitem. rewrite index_nonneg by done.
  case_bool_decide as Hlt; [done|].
  rewrite (lookup_ge_None_2 l (Z.to_nat i)) by lia. done.
Qed.

Lemma getitem_Ret l i x :
  0 ≤ i → Py.getitem l i = Ret x ↔ l !! Z.to_nat i = Some x.
Proof.
  intros Hi. rewrite getitem_nonneg by done.
  destruct (l !! Z.to_nat i); split; congruence.
Qed.

Lemma setitem_nonneg l i x :
  0 ≤ i →
  Py.setitem l i x =
    if bool_decide (Z.to_nat i < length l)%nat then Ret (<[Z.to_nat i := x]> l)
    else Raise IndexError.
Proof.
  intros Hi. unfold Py.setitem. rewrite index_nonneg by done.
  repeat case_bool_decide; try reflexivity; lia.
Qed.

Lemma setitem_Ret l i x l' :
  0 ≤ i →
  Py.setitem l i x = Ret l' ↔ (Z.to_nat i < length l)%nat ∧ l' = <[Z.to_nat i := x]> l.
Proof.
  intros Hi. rewrite setitem_nonneg by done.
  case_bool_decide; split; [naive_solver|intros [_ ->]; done|done|naive_solver].
Qed.

End python_layer.

(** [len(l) == len(set(l))] exactly when no value occurs twice in [l]. *)
Lemma set_len_le (l : list Z) : (Py.set_len l ≤ length l)%nat.
Proof.
  unfold Py.set_len. induction l as [|x l IH].
  - done.
  - rewrite list_to_set_cons, size_union_alt, size_singleton. simpl length.
    assert (size (list_to_set l ∖ {[x]} : gset Z) ≤ size (list_to_set l : gset Z))%nat
      by (apply subseteq_size; set_solver).
    lia.
Qed.

Lemma set_len_NoDup (l : list Z) : length l = Py.set_len l ↔ NoDup l.
Proof.
  split.
  - induction l as [|x l IH]; intros Hlen; [constructor|].
    unfold Py.set_len in *. rewrite list_to_set_cons in Hlen. simpl length in Hlen.
    destruct (decide (x ∈ l)) as [Hin|Hnin].
    + exfalso.
      assert ({[x]} ∪ list_to_set l = (list_to_set l : gset Z)) as Heq by set_solver.
      rewrite Heq in Hlen. pose proof (set_len_le l) as Hle.
      unfold Py.set_len in Hle. lia.
    + constructor; [done|]. apply IH.
      rewrite size_union, size_singleton in Hlen by set_solver. lia.
  - intros Hnd. unfold Py.set_len. by rewrite size_list_to_set.
Qed.

Lemma has_repeat_false (l : list Z) : has_repeat l = false ↔ NoDup l.
Proof.
  unfold has_repeat. rewrite negb_false_iff, bool_decide_eq_true.
  apply set_len_NoDup.
Qed.

Lemma has_repeat_true (l : list Z) : has_repeat l = true ↔ ¬ NoDup l.
Proof.
  rewrite <- has_repeat_false. destruct (has_repeat l); naive_solver.
Qed.

(** ** Running a method body *)

Section method_bodies.
Context {A B : Type}.

Lemma bind_Ret (m : M A) (k : A → M B) p a p1 :
  m p = (Ret a, p1) → bind m k p = k a p1.
Proof. unfold bind. by intros ->. Qed.

Lemma bind_Raise (m : M A) (k : A → M B) p e p1 :
  m p = (Raise e, p1) → bind m k p = (Raise e, p1).
Proof. unfold bind. by intros ->. Qed.

Lemma bind_Ret_inv (m : M A) (k : A → M B) p b p' :
  bind m k p = (Ret b, p') → ∃ a p1, m p = (Ret a, p1) ∧ k a p1 = (Ret b, p').
Proof.
  unfold bind. destruct (m p) as [[a|e] p1]; [eauto|discriminate].
Qed.

Lemma read_Ret_inv (f : Puzzle → result A) p a p' :
  read f p = (Ret a, p') → f p = Ret a ∧ p' = p.
Proof. unfold read. by intros [= -> ->]. Qed.

End method_bodies.

Lemma write_Ret (f : Puzzle → result Puzzle) p p' :
  f p = Ret p' → write f p = (Ret (), p').
Proof. unfold write. by intros ->. Qed.

Lemma write_Ret_inv (f : Puzzle → result Puzzle) p u p' :
  write f p = (Ret u, p') → f p = Ret p'.
Proof. unfold write. destruct (f p); [by intros [= _ ->]|discriminate]. Qed.

Lemma result_bind_Ret_inv {A B} (m : result A) (k : A → result B) b :
  m ≫= k = Ret b → ∃ a, m = Ret a ∧ k a = Ret b.
Proof. destruct m; [eauto|discriminate]. Qed.

(** Reading a cell [g[r][c]] with indices that are not negative. *)
Lemma getitem2_Ret {A} (g : list (list A)) (r c : Z) (x : A) :
  0 ≤ r → 0 ≤ c →
  (row ← Py.getitem g r; Py.getitem row c) = Ret x ↔
  ∃ row, g !! Z.to_nat r = Some row ∧ row !! Z.to_nat c = Some x.
Proof.
  intros Hr Hc. split.
  - intros (row & Hrow & Hx)%result_bind_Ret_inv.
    apply getitem_Ret in Hrow, Hx; eauto.
  - intros (row & Hrow & Hx).
    rewrite getitem_nonneg, Hrow by done. simpl.
    by rewrite getitem_nonneg, Hx by done.
Qed.

(** The three assignments, for indices in range. *)
Lemma board_setitem_Ret (r c val : Z) p p' :
  0 ≤ r → 0 ≤ c →
  board_setitem r c val p = Ret p' ↔
  ∃ brow, board p !! Z.to_nat r = Some brow ∧ (Z.to_nat c < length brow)%nat ∧
          p' = mkPuzzle (<[Z.to_nat r := <[Z.to_nat c := val]> brow]> (board p))
                        (columns p) (boxes p) (mask p).
Proof.
  intros Hr Hc. unfold board_setitem. split.
  - intros (brow & Hrow & (row' & Hset & (b' & Hset' & [= <-])%result_bind_Ret_inv)%result_bind_Ret_inv)%result_bind_Ret_inv.
    apply getitem_Ret in Hrow; [|done].
    apply setitem_Ret in Hset as [? ->]; [|done].
    apply setitem_Ret in Hset' as [? ->]; [|done]. eauto.
  - intros (brow & Hrow & Hlen & ->).
    rewrite getitem_nonneg, Hrow by done. simpl.
    rewrite setitem_nonneg, bool_decide_true by done. simpl.
    apply lookup_lt_Some in Hrow.
    by rewrite setitem_nonneg, bool_decide_true by done.
Qed.

Lemma rows_setitem_Ret (r c val : Z) p p' :
  0 ≤ r ≤ 8 → 0 ≤ c →
  rows_setitem r c val p = Ret p' ↔
  ∃ brow, board p !! Z.to_nat r = Some brow ∧ (Z.to_nat c < length brow)%nat ∧
          p' = mkPuzzle (<[Z.to_nat r := <[Z.to_nat c := val]> brow]> (board p))
                        (columns p) (boxes p) (mask p).
Proof.
  intros Hr Hc. unfold rows_setitem. rewrite bool_decide_true by done.
  apply board_setitem_Ret; lia.
Qed.

Lemma columns_setitem_Ret (k i val : Z) p p' :
  0 ≤ i →
  columns_setitem k i val p = Ret p' ↔
  ∃ lst, columns p !! k = Some lst ∧ (Z.to_nat i < length lst)%nat ∧
         p' = mkPuzzle (board p) (<[k := <[Z.to_nat i := val]> lst]> (columns p))
                       (boxes p) (mask p).
Proof.
  intros Hi. unfold columns_setitem, Py.dict_get. split.
  - intros (lst & Hget & (lst' & Hset & [= <-])%result_bind_Ret_inv)%result_bind_Ret_inv.
    destruct (columns p !! k) as [lst0|] eqn:Hk; [|discriminate].
    injection Hget as ->.
    apply setitem_Ret in Hset as [? ->]; [|done]. eauto.
  - intros (lst & -> & Hlen & ->). simpl.
    by rewrite setitem_nonneg, bool_decide_true by done.
Qed.

Lemma boxes_setitem_Ret (k i val : Z) p p' :
  0 ≤ i →
  boxes_setitem k i val p = Ret p' ↔
  ∃ lst, boxes p !! k = Some lst ∧ (Z.to_nat i < length lst)%nat ∧
         p' = mkPuzzle (board p) (columns p)
                       (<[k := <[Z.to_nat i := val]> lst]> (boxes p)) (mask p).
Proof.
  intros Hi. unfold boxes_setitem, Py.dict_get. split.
  - intros (lst & Hget & (lst' & Hset & [= <-])%result_bind_Ret_inv)%result_bind_Ret_inv.
    destruct (boxes p !! k) as [lst0|] eqn:Hk; [|discriminate].
    injection Hget as ->.
    apply setitem_Ret in Hset as [? ->]; [|done]. eauto.
  - intros (lst & -> & Hlen & ->). simpl.
    by rewrite setitem_nonneg, bool_decide_true by done.
Qed.

(** ** What a call to [update] does *)

Lemma is_valid_views (r c : Z) p row col bx :
  0 ≤ r ≤ 8 →
  board p !! Z.to_nat r = Some row →
  columns p !! c = Some col →
  boxes p !! get_boxIndex r c = Some bx →
  is_valid r c p = Ret (units_ok row col bx).
Proof.
  intros Hr Hrow Hcol Hbx. unfold is_valid, rows_get, Py.dict_get, units_ok.
  rewrite bool_decide_true, getitem_nonneg, Hrow, Hcol, Hbx by lia. simpl.
  by repeat destruct (has_repeat _).
Qed.

Lemma is_valid_Ret_inv (r c : Z) p ok :
  0 ≤ r ≤ 8 →
  is_valid r c p = Ret ok →
  ∃ row col bx,
    board p !! Z.to_nat r = Some row ∧ columns p !! c = Some col ∧
    boxes p !! get_boxIndex r c = Some bx ∧ ok = units_ok row col bx.
Proof.
  intros Hr Hv'. pose proof Hv' as Hv.
  unfold is_valid, rows_get, Py.dict_get in Hv.
  rewrite bool_decide_true, getitem_nonneg in Hv by lia.
  destruct (board p !! Z.to_nat r) as [row|] eqn:Hrow; [|discriminate].
  destruct (columns p !! c) as [col|] eqn:Hcol; [|discriminate].
  destruct (boxes p !! get_boxIndex r c) as [bx|] eqn:Hbx; [|discriminate].
  exists row, col, bx. repeat split; try done.
  rewrite (is_valid_views r c p row col bx) in Hv' by done. congruence.
Qed.

Lemma box_offset_nonneg r c : 0 ≤ box_offset r c.
Proof. unfold box_offset. pose proof (Z.mod_pos_bound r 3). pose proof (Z.mod_pos_bound c 3). lia. Qed.

Lemma staged_is_valid r c val brow col bx prev p :
  0 ≤ r ≤ 8 → at_cell r c p brow col bx prev →
  is_valid r c (staged r c val brow col bx p) =
    Ret (units_ok (<[Z.to_nat c := val]> brow) (<[Z.to_nat r := val]> col)
                  (<[Z.to_nat (box_offset r c) := val]> bx)).
Proof.
  intros Hr [Hrow _ _ _ _ _]. apply is_valid_views; [done|simpl..].
  - apply list_lookup_insert_eq. by eapply lookup_lt_Some.
  - apply lookup_insert_eq.
  - apply lookup_insert_eq.
Qed.

Lemma legal_value (val : Z) : val ∈ [0; 1; 2; 3; 4; 5; 6; 7; 8; 9] ↔ 0 ≤ val ≤ 9.
Proof.
  split.
  - intros H. repeat (apply elem_of_cons in H as [->|H]; [lia|]).
    by apply elem_of_nil in H.
  - intros H.
    assert (val = 0 ∨ val = 1 ∨ val = 2 ∨ val = 3 ∨ val = 4 ∨ val = 5 ∨ val = 6
            ∨ val = 7 ∨ val = 8 ∨ val = 9) as Hv by lia.
    set_solver.
Qed.

Lemma update_success r c val brow col bx prev p :
  0 ≤ r ≤ 8 → 0 ≤ c ≤ 8 → 0 ≤ val ≤ 9 →
  editable r c p → at_cell r c p brow col bx prev →
  is_valid r c (staged r c val brow col bx p) = Ret true →
  update r c val p = (Ret (), staged r c val brow col bx p).
Proof.
  intros Hr Hc Hval (mrow & Hmrow & Hm) Hat Hok.
  pose proof Hat as [Hrow Hprev Hcol Hcl Hbx Hbl].
  unfold update. rewrite bool_decide_true by (by apply legal_value). cbn [negb].
  erewrite bind_Ret; [|unfold read; f_equal; apply getitem2_Ret; [lia..|eauto]].
  rewrite bool_decide_false by done. cbv beta iota.
  erewrite bind_Ret; [|unfold read; f_equal; apply getitem2_Ret; [lia..|eauto]].
  erewrite bind_Ret; [|apply write_Ret, rows_setitem_Ret; [lia..|]; eexists; split_and!; [done| |done]].
  2:{ by eapply lookup_lt_Some. }
  erewrite bind_Ret; [|apply write_Ret, columns_setitem_Ret; [lia|]; eexists; split_and!; [done..|reflexivity]].
  erewrite bind_Ret; [|apply write_Ret, boxes_setitem_Ret; [apply box_offset_nonneg|]; eexists; split_and!; [done..|reflexivity]].
  erewrite bind_Ret; [|unfold read; f_equal; exact Hok].
  cbv beta iota.
  erewrite bind_Ret; [|apply write_Ret, board_setitem_Ret; [lia..|]; eexists; split_and!; [|  |reflexivity]].
  - unfold ret. f_equal. unfold staged. simpl. f_equal.
    by rewrite list_insert_insert_eq, list_insert_insert_eq.
  - simpl. apply list_lookup_insert_eq. by eapply lookup_lt_Some.
  - rewrite length_insert. by eapply lookup_lt_Some.
Qed.

Lemma update_Ret_inv r c val p u p' :
  0 ≤ r ≤ 8 → 0 ≤ c ≤ 8 →
  update r c val p = (Ret u, p') →
  0 ≤ val ≤ 9 ∧ editable r c p ∧
  ∃ brow col bx prev,
    at_cell r c p brow col bx prev ∧
    p' = staged r c val brow col bx p ∧
    is_valid r c p' = Ret true.
Proof.
  intros Hr Hc. unfold update.
  case_bool_decide as Hval; cbn [negb]; cbv beta iota; [|discriminate].
  apply legal_value in Hval.
  intros (m & p1 & [Hm ->]%read_Ret_inv & Hk)%bind_Ret_inv.
  apply getitem2_Ret in Hm as (mrow & Hmrow & Hm); [|lia..].
  case_bool_decide as Hed; [discriminate|].
  destruct m; [|done].
  apply bind_Ret_inv in Hk as (prev & p1 & [Hprev ->]%read_Ret_inv & Hk).
  apply getitem2_Ret in Hprev as (brow & Hrow & Hprev); [|lia..].
  apply bind_Ret_inv in Hk as (? & p1 & Hw1%write_Ret_inv & Hk).
  apply rows_setitem_Ret in Hw1 as (brow' & Hrow' & Hlen1 & ->); [|lia..].
  assert (brow' = brow) as -> by congruence.
  apply bind_Ret_inv in Hk as (? & p2 & Hw2%write_Ret_inv & Hk).
  apply columns_setitem_Ret in Hw2 as (col & Hcol & Hlen2 & ->); [|lia]. simpl in *.
  apply bind_Ret_inv in Hk as (? & p3 & Hw3%write_Ret_inv & Hk).
  apply boxes_setitem_Ret in Hw3 as (bx & Hbx & Hlen3 & ->); [|apply box_offset_nonneg].
  simpl in *.
  apply bind_Ret_inv in Hk as (ok & p4 & [Hok ->]%read_Ret_inv & Hk).
  assert (at_cell r c p brow col bx prev) as Hat by (by constructor).
  destruct ok.
  - apply bind_Ret_inv in Hk as (? & p5 & Hw4%write_Ret_inv & [= _ <-]).
    split; [done|]. split; [by exists mrow|].
    exists brow, col, bx, prev. split; [done|].
    assert (p5 = staged r c val brow col bx p) as ->; [|done].
    apply board_setitem_Ret in Hw4 as (brow2 & Hrow2 & _ & ->); [|lia..].
    simpl in *. unfold staged. f_equal.
    rewrite list_lookup_insert_eq in Hrow2 by (by eapply lookup_lt_Some).
    injection Hrow2 as <-.
    by rewrite list_insert_insert_eq, list_insert_insert_eq.
  - exfalso.
    apply bind_Ret_inv in Hk as (? & p5 & _ & Hk).
    apply bind_Ret_inv in Hk as (? & p6 & _ & Hk).
    apply bind_Ret_inv in Hk as (? & p7 & _ & Hk). discriminate.
Qed.

(** ** The mask is never written *)

Lemma keeps_mask_ret {A} (a : A) : keeps_mask (ret a).
Proof. by intros p. Qed.

Lemma keeps_mask_raise {A} (e : exn) : keeps_mask (raise (A:=A) e).
Proof. by intros p. Qed.

Lemma keeps_mask_read {A} (f : Puzzle → result A) : keeps_mask (read f).
Proof. by intros p. Qed.

Lemma keeps_mask_bind {A B} (m : M A) (k : A → M B) :
  keeps_mask m → (∀ a, keeps_mask (k a)) → keeps_mask (bind m k).
Proof.
  intros Hm Hk p. unfold bind. specialize (Hm p).
  destruct (m p) as [[a|e] p1]; simpl in *; [|done].
  by rewrite Hk.
Qed.

Lemma keeps_mask_write (f : Puzzle → result Puzzle) :
  (∀ p p', f p = Ret p' → mask p' = mask p) → keeps_mask (write f).
Proof.
  intros Hf p. unfold write. destruct (f p) eqn:E; simpl; [by apply Hf|done].
Qed.

Lemma board_setitem_mask r c val p p' : board_setitem r c val p = Ret p' → mask p' = mask p.
Proof.
  unfold board_setitem.
  by intros (? & _ & (? & _ & (? & _ & [= <-])%result_bind_Ret_inv)%result_bind_Ret_inv)%result_bind_Ret_inv.
Qed.

Lemma rows_setitem_mask r c val p p' : rows_setitem r c val p = Ret p' → mask p' = mask p.
Proof.
  unfold rows_setitem. case_bool_decide; [apply board_setitem_mask|discriminate].
Qed.

Lemma columns_setitem_mask k i val p p' : columns_setitem k i val p = Ret p' → mask p' = mask p.
Proof.
  unfold columns_setitem.
  by intros (? & _ & (? & _ & [= <-])%result_bind_Ret_inv)%result_bind_Ret_inv.
Qed.

Lemma boxes_setitem_mask k i val p p' : boxes_setitem k i val p = Ret p' → mask p' = mask p.
Proof.
  unfold boxes_setitem.
  by intros (? & _ & (? & _ & [= <-])%result_bind_Ret_inv)%result_bind_Ret_inv.
Qed.

Create HintDb mask_db.
#[local] Hint Resolve keeps_mask_ret keeps_mask_raise keeps_mask_read keeps_mask_bind
  keeps_mask_write board_setitem_mask rows_setitem_mask columns_setitem_mask
  boxes_setitem_mask : mask_db.

Lemma update_keeps_mask r c val : keeps_mask (update r c val).
Proof.
  unfold update. destruct (negb _); [auto with mask_db|].
  apply keeps_mask_bind; [auto with mask_db|]. intros m.
  destruct (bool_decide _); [auto with mask_db|].
  apply keeps_mask_bind; [auto with mask_db|]. intros prev.
  do 3 (apply keeps_mask_bind; [eauto with mask_db|intros _]).
  apply keeps_mask_bind; [auto with mask_db|intros ok].
  destruct ok; repeat (apply keeps_mask_bind; [eauto with mask_db|intros _]);
    auto with mask_db.
Qed.

Lemma run_keeps_mask calls p : mask (run calls p).2 = mask p.
Proof.
  revert p. induction calls as [|[[r c] val] calls IH]; intros p; [done|].
  simpl. pose proof (update_keeps_mask r c val p) as Hu.
  destruct (update r c val p) as [o p1]. simpl in Hu.
  specialize (IH p1). destruct (run calls p1) as [os p2]. simpl in *. congruence.
Qed.

Lemma update_fixed r c val p :
  0 ≤ r → 0 ≤ c → 0 ≤ val ≤ 9 → fixed r c p →
  update r c val p = (Raise FixedValue, p).
Proof.
  intros Hr Hc Hval (mrow & Hmrow & Hm).
  unfold update. rewrite bool_decide_true by (by apply legal_value). cbn [negb].
  erewrite bind_Ret; [|unfold read; f_equal; apply getitem2_Ret; [lia..|eauto]].
  by rewrite bool_decide_true.
Qed.

Lemma init_Ret_inv g p :
  init g = Ret p → board p = g ∧ mask p = get_mask g ∧
  makeDict (get_column g) = Ret (columns p) ∧ makeDict (get_box g) = Ret (boxes p).
Proof.
  unfold init.
  intros (? & _ & (cols & Hc & (bxs & Hb & [= <-])%result_bind_Ret_inv)%result_bind_Ret_inv)%result_bind_Ret_inv.
  done.
Qed.

Lemma get_mask_lookup g (i j : nat) grow v :
  g !! i = Some grow → grow !! j = Some v →
  ∃ mrow, get_mask g !! i = Some mrow ∧ mrow !! j = Some (bool_decide (v = 0)).
Proof.
  intros Hi Hj. unfold get_mask. eexists. split.
  - rewrite list_lookup_fmap, Hi. reflexivity.
  - by rewrite list_lookup_fmap, Hj.
Qed.

Lemma loaded_sample : init sample_grid = Ret (loaded sample_grid).
Proof. by vm_compute. Qed.

(** ** Rejected calls *)

(** C4. A value outside [0,9] makes [update] raise [InvalidValue] as its
    first step, whatever the cell (fixed or not, in range or not) and
    whatever the board: the mask is not read, nothing is written, and the
    grid, the rows, the columns and the boxes are those of before. *)
Theorem update_invalid_value (p : Puzzle) (r c val : Z) :
  ¬ (0 ≤ val ≤ 9) → update r c val p = (Raise InvalidValue, p).
Proof.
  intros Hval. unfold update.
  rewrite bool_decide_false; [done|]. by rewrite legal_value.
Qed.

Lemma update_invalid_value_witness :
  fixed 0 0 (loaded sample_grid) ∧
  update 0 0 12 (loaded sample_grid) = (Raise InvalidValue, loaded sample_grid).
Proof.
  split.
  - eexists. split; reflexivity.
  - apply update_invalid_value. lia.
Defined.

(** C5. A cell whose value in the initial grid is not zero is fixed for
    the life of the board: after any sequence of calls, [update] on it with
    a value in [0,9] raises [FixedValue] and leaves the grid, the rows, the
    columns and the boxes as they were. *)
Theorem update_fixed_cell (grid : list (list Z)) (p0 : Puzzle)
    (calls : list (Z * Z * Z)) (r c val : Z) (grow : list Z) (v : Z) :
  init grid = Ret p0 →
  0 ≤ r ≤ 8 → 0 ≤ c ≤ 8 → 0 ≤ val ≤ 9 →
  grid !! Z.to_nat r = Some grow → grow !! Z.to_nat c = Some v → v ≠ 0 →
  fixed r c (run calls p0).2 ∧
  update r c val (run calls p0).2 = (Raise FixedValue, (run calls p0).2).
Proof.
  intros Hinit Hr Hc Hval Hrow Hv Hnz.
  assert (fixed r c (run calls p0).2) as Hfix.
  { unfold fixed. rewrite run_keeps_mask.
    apply init_Ret_inv in Hinit as (_ & -> & _).
    destruct (get_mask_lookup grid _ _ _ _ Hrow Hv) as (mrow & Hm & Hm').
    exists mrow. by rewrite bool_decide_false in Hm'. }
  split; [done|]. apply update_fixed; [lia..|done].
Qed.

Lemma update_fixed_cell_witness :
  let p := (run [(0, 2, 4); (0, 2, 5)] (loaded sample_grid)).2 in
  update 0 1 7 p = (Raise FixedValue, p).
Proof.
  refine (proj2 (update_fixed_cell sample_grid (loaded sample_grid)
                   [(0, 2, 4); (0, 2, 5)] 0 1 7 [5;3;0;0;7;0;0;0;0] 3 _ _ _ _ _ _ _));
    [reflexivity|lia|lia|lia|reflexivity|reflexivity|lia].
Defined.

(** ** Repeating a successful call *)

(** C8. If [update(r, c, val)] succeeds, the same call made again at once
    succeeds too and changes nothing: the board after the second call (grid,
    rows, columns, boxes and mask) is the board after the first. *)
Theorem update_idempotent (p p' : Puzzle) (r c val : Z) :
  0 ≤ r ≤ 8 → 0 ≤ c ≤ 8 →
  update r c val p = (Ret (), p') →
  update r c val p' = (Ret (), p').
Proof.
  intros Hr Hc Hu.
  apply update_Ret_inv in Hu as (Hval & (mrow & Hmrow & Hm) & brow & col & bx & prev & Hat & -> & Hok);
    [|done..].
  destruct Hat as [Hrow Hprev Hcol Hcl Hbx Hbl].
  set (p1 := staged r c val brow col bx p) in *.
  assert (at_cell r c p1 (<[Z.to_nat c := val]> brow) (<[Z.to_nat r := val]> col)
            (<[Z.to_nat (box_offset r c) := val]> bx) val) as Hat1.
  { constructor; simpl; rewrite ?length_insert; try done.
    - apply list_lookup_insert_eq. by eapply lookup_lt_Some.
    - apply list_lookup_insert_eq. by eapply lookup_lt_Some.
    - apply lookup_insert_eq.
    - apply lookup_insert_eq. }
  assert (staged r c val (<[Z.to_nat c := val]> brow) (<[Z.to_nat r := val]> col)
            (<[Z.to_nat (box_offset r c) := val]> bx) p1 = p1) as Hsame.
  { unfold staged, p1. simpl.
    by rewrite !list_insert_insert_eq, !insert_insert_eq. }
  rewrite <- Hsame at 2.
  eapply update_success; [done..| |exact Hat1|by rewrite Hsame].
  by exists mrow.
Qed.

Lemma update_idempotent_witness :
  let p' := (update 0 2 4 (loaded sample_grid)).2 in
  update 0 2 4 p' = (Ret (), p').
Proof.
  apply (update_idempotent (loaded sample_grid)); [lia|lia|reflexivity].
Defined.

(** ** The grid and its units *)

Lemma get_row_Ret g r row : 0 ≤ r → get_row g r = Ret row ↔ g !! Z.to_nat r = Some row.
Proof. apply getitem_Ret. Qed.

Lemma get_column_cells g c :
  grid9 g → 0 ≤ c ≤ 8 →
  ∃ col, get_column g c = Ret col ∧ length col = 9%nat ∧
         ∀ i, (i < 9)%nat → col !! i = cell g i (Z.to_nat c).
Proof.
  intros Hg Hc. explode_grid g Hg. enum9 c Hc.
  all: eexists; split; [vm_compute; reflexivity|split; [reflexivity|]].
  all: intros i Hi; do 9 (destruct i as [|i]; [reflexivity|]); lia.
Qed.

Lemma get_box_cells g k :
  grid9 g → 0 ≤ k ≤ 8 →
  ∃ bx, get_box g k = Ret bx ∧ length bx = 9%nat ∧
        ∀ j, (j < 9)%nat → bx !! j = cell g (box_row k j) (box_col k j).
Proof.
  intros Hg Hk. explode_grid g Hg. enum9 k Hk.
  all: eexists; split; [vm_compute; reflexivity|split; [reflexivity|]].
  all: intros j Hj; do 9 (destruct j as [|j]; [reflexivity|]); lia.
Qed.

(** Position [box_offset r c] of box [get_boxIndex r c] is the grid cell
    [(r, c)], and no other position of any box is. *)
Lemma box_of_cell r c :
  0 ≤ r ≤ 8 → 0 ≤ c ≤ 8 →
  0 ≤ get_boxIndex r c ≤ 8 ∧ (Z.to_nat (box_offset r c) < 9)%nat ∧
  box_row (get_boxIndex r c) (Z.to_nat (box_offset r c)) = Z.to_nat r ∧
  box_col (get_boxIndex r c) (Z.to_nat (box_offset r c)) = Z.to_nat c.
Proof.
  intros Hr Hc. enum9 r Hr; enum9 c Hc.
  all: repeat split; first [reflexivity | by vm_compute | vm_compute; lia].
Qed.

Lemma cell_of_box r c k j :
  0 ≤ r ≤ 8 → 0 ≤ c ≤ 8 → 0 ≤ k ≤ 8 → (j < 9)%nat →
  box_row k j = Z.to_nat r → box_col k j = Z.to_nat c →
  k = get_boxIndex r c ∧ j = Z.to_nat (box_offset r c).
Proof.
  intros Hr Hc Hk Hj Hrow Hcol.
  assert (r = Z.of_nat (box_row k j)) as -> by lia.
  assert (c = Z.of_nat (box_col k j)) as -> by lia.
  clear Hrow Hcol Hr Hc. enum9 k Hk.
  all: do 9 (destruct j as [|j]; [by vm_compute|]); lia.
Qed.

Lemma cell_insert g i j v row i' j' :
  g !! i = Some row → (j < length row)%nat →
  cell (<[i := <[j := v]> row]> g) i' j' =
    if decide (i' = i ∧ j' = j) then Some v else cell g i' j'.
Proof.
  intros Hrow Hj. unfold cell.
  destruct (decide (i' = i)) as [->|Hne].
  - rewrite list_lookup_insert_eq by (by eapply lookup_lt_Some). rewrite Hrow. simpl.
    destruct (decide (j' = j)) as [->|Hne].
    + rewrite list_lookup_insert_eq by done. by rewrite decide_True.
    + rewrite list_lookup_insert_ne by done. rewrite decide_False by naive_solver. done.
  - rewrite list_lookup_insert_ne by done. by rewrite decide_False by naive_solver.
Qed.

Lemma grid9_insert g i j v row :
  grid9 g → g !! i = Some row → grid9 (<[i := <[j := v]> row]> g).
Proof.
  intros [Hlen Hall] Hrow. split; [by rewrite length_insert|].
  apply Forall_insert; [done|]. rewrite length_insert.
  by eapply (Forall_lookup_1 _ _ _ _ Hall).
Qed.

Lemma unit_eq (l1 l2 : list Z) :
  length l1 = 9%nat → length l2 = 9%nat →
  (∀ i, (i < 9)%nat → l1 !! i = l2 !! i) → l1 = l2.
Proof.
  intros H1 H2 Hi. apply list_eq. intros i.
  destruct (decide (i < 9)%nat); [by apply Hi|].
  by rewrite !lookup_ge_None_2 by lia.
Qed.

(** Writing one cell of the grid changes one position of its column and
    one position of its box, and no other column or box. *)
Lemma get_column_insert g r c v row k :
  grid9 g → 0 ≤ r ≤ 8 → 0 ≤ c ≤ 8 → 0 ≤ k ≤ 8 →
  g !! Z.to_nat r = Some row →
  get_column (<[Z.to_nat r := <[Z.to_nat c := v]> row]> g) k =
    (if decide (k = c) then <[Z.to_nat r := v]> else id) <$> get_column g k.
Proof.
  intros Hg Hr Hc Hk Hrow.
  assert (length row = 9%nat) as Hlen by (by eapply (Forall_lookup_1 _ _ _ _ (proj2 Hg))).
  destruct (get_column_cells g k Hg Hk) as (col & -> & Hl & Hcells).
  destruct (get_column_cells _ k (grid9_insert g _ (Z.to_nat c) v row Hg Hrow) Hk)
    as (col' & -> & Hl' & Hcells').
  simpl. f_equal.
  destruct (decide (k = c)) as [->|Hk'].
  all: apply unit_eq; [done|by rewrite ?length_insert|].
  all: intros i Hi; rewrite Hcells', cell_insert by (done || lia).
  - destruct (decide (i = Z.to_nat r)) as [->|Hne].
    + rewrite decide_True by done. by rewrite list_lookup_insert_eq by lia.
    + rewrite decide_False by naive_solver.
      rewrite list_lookup_insert_ne by done. by rewrite Hcells.
  - rewrite decide_False by (intros [_ ?]; lia). simpl. by rewrite Hcells.
Qed.

Lemma get_box_insert g r c v row k :
  grid9 g → 0 ≤ r ≤ 8 → 0 ≤ c ≤ 8 → 0 ≤ k ≤ 8 →
  g !! Z.to_nat r = Some row →
  get_box (<[Z.to_nat r := <[Z.to_nat c := v]> row]> g) k =
    (if decide (k = get_boxIndex r c) then <[Z.to_nat (box_offset r c) := v]> else id)
      <$> get_box g k.
Proof.
  intros Hg Hr Hc Hk Hrow.
  assert (length row = 9%nat) as Hlen by (by eapply (Forall_lookup_1 _ _ _ _ (proj2 Hg))).
  destruct (get_box_cells g k Hg Hk) as (bx & -> & Hl & Hcells).
  destruct (get_box_cells _ k (grid9_insert g _ (Z.to_nat c) v row Hg Hrow) Hk)
    as (bx' & -> & Hl' & Hcells').
  destruct (box_of_cell r c Hr Hc) as (Hb & Hoff & Hbr & Hbc).
  simpl. f_equal.
  destruct (decide (k = get_boxIndex r c)) as [->|Hk'].
  all: apply unit_eq; [done|by rewrite ?length_insert|].
  all: intros j Hj; rewrite Hcells', cell_insert by (done || lia).
  - destruct (decide (j = Z.to_nat (box_offset r c))) as [->|Hne].
    + rewrite decide_True by done. by rewrite list_lookup_insert_eq by lia.
    + rewrite decide_False.
      * rewrite list_lookup_insert_ne by done. by rewrite Hcells.
      * intros [Hx Hy]. by destruct (cell_of_box r c _ j Hr Hc Hb Hj Hx Hy).
  - rewrite decide_False.
    + simpl. by rewrite Hcells.
    + intros [Hx Hy]. by destruct (cell_of_box r c k j Hr Hc Hk Hj Hx Hy).
Qed.

(** ** Derived views in step with the grid, legal grids *)

Lemma elem_of_range9 i : i ∈ Py.range 9 ↔ 0 ≤ i ≤ 8.
Proof.
  change (Py.range 9) with [0; 1; 2; 3; 4; 5; 6; 7; 8]. split.
  - intros H. repeat (apply elem_of_cons in H as [->|H]; [lia|]).
    by apply elem_of_nil in H.
  - intros H.
    assert (i = 0 ∨ i = 1 ∨ i = 2 ∨ i = 3 ∨ i = 4 ∨ i = 5 ∨ i = 6 ∨ i = 7 ∨ i = 8)
      as Hv by lia.
    set_solver.
Qed.

Lemma legal_units g i :
  legal g → 0 ≤ i ≤ 8 →
  unit_legal (get_row g i) ∧ unit_legal (get_column g i) ∧ unit_legal (get_box g i).
Proof.
  intros Hl Hi. unfold legal in Hl. rewrite Forall_forall in Hl.
  by apply Hl, elem_of_range9.
Qed.

Lemma result_fmap_id {A} (m : result A) : id <$> m = m.
Proof. by destruct m. Qed.

Lemma dict_get_Ret {A} (d : gmap Z A) k x : Py.dict_get d k = Ret x ↔ d !! k = Some x.
Proof. unfold Py.dict_get. destruct (d !! k); split; congruence. Qed.

Lemma dict_get_insert {A} (d : gmap Z A) k k' x :
  Py.dict_get (<[k := x]> d) k' = if decide (k' = k) then Ret x else Py.dict_get d k'.
Proof.
  unfold Py.dict_get. case_decide as Hk; [subst; by rewrite lookup_insert_eq|].
  by rewrite lookup_insert_ne.
Qed.

(** The cell that [update] works on, in a board whose views agree with
    its 9x9 grid. *)
Lemma synced_at_cell p r c :
  grid9 (board p) → synced p → 0 ≤ r ≤ 8 → 0 ≤ c ≤ 8 →
  ∃ brow col bx prev,
    at_cell r c p brow col bx prev ∧
    length brow = 9%nat ∧ length col = 9%nat ∧ length bx = 9%nat ∧
    get_row (board p) r = Ret brow ∧ get_column (board p) c = Ret col ∧
    get_box (board p) (get_boxIndex r c) = Ret bx.
Proof.
  intros Hg Hs Hr Hc.
  destruct (box_of_cell r c Hr Hc) as (Hb & Hoff & _).
  destruct (lookup_lt_is_Some_2 (board p) (Z.to_nat r)) as [brow Hrow]; [destruct Hg; lia|].
  assert (length brow = 9%nat) as Hlen by (by eapply (Forall_lookup_1 _ _ _ _ (proj2 Hg))).
  destruct (lookup_lt_is_Some_2 brow (Z.to_nat c)) as [prev Hprev]; [lia|].
  destruct (get_column_cells _ c Hg Hc) as (col & Hcol & Hcl & _).
  destruct (get_box_cells _ _ Hg Hb) as (bx & Hbx & Hbl & _).
  destruct (Hs c Hc) as (_ & Hsc & _). destruct (Hs _ Hb) as (_ & _ & Hsb).
  rewrite Hcol in Hsc. rewrite Hbx in Hsb.
  apply dict_get_Ret in Hsc, Hsb.
  exists brow, col, bx, prev. split_and!; try done.
  - constructor; try done; lia.
  - by apply get_row_Ret; [lia|].
Qed.

(** C9. A successful [update] keeps the derived views in step with the
    grid: if the rows, columns and boxes dictionaries agree with the 9x9
    grid before the call, they agree with it after; the position written
    in the box list is that of the grid cell [(r, c)]. *)
Theorem update_keeps_synced (p p' : Puzzle) (r c val : Z) :
  grid9 (board p) → synced p → 0 ≤ r ≤ 8 → 0 ≤ c ≤ 8 →
  update r c val p = (Ret (), p') →
  grid9 (board p') ∧ synced p' ∧
  box_row (get_boxIndex r c) (Z.to_nat (box_offset r c)) = Z.to_nat r ∧
  box_col (get_boxIndex r c) (Z.to_nat (box_offset r c)) = Z.to_nat c.
Proof.
  intros Hg Hs Hr Hc Hu.
  apply update_Ret_inv in Hu as (Hval & _ & brow & col & bx & prev & Hat & -> & _);
    [|done..].
  destruct Hat as [Hrow Hprev Hcol Hcl Hbx Hbl].
  destruct (box_of_cell r c Hr Hc) as (Hb & Hoff & Hbr & Hbc).
  split; [by apply grid9_insert|]. split; [|done].
  intros i Hi. destruct (Hs i Hi) as (_ & Hsc & Hsb). split_and!.
  - unfold rows_get, get_row. by rewrite bool_decide_true.
  - simpl. rewrite get_column_insert, dict_get_insert, <- Hsc by done.
    case_decide as Hic; [subst i|by rewrite result_fmap_id].
    apply dict_get_Ret in Hcol. by rewrite Hcol.
  - simpl. rewrite get_box_insert, dict_get_insert, <- Hsb by done.
    case_decide as Hib; [subst i|by rewrite result_fmap_id].
    apply dict_get_Ret in Hbx. by rewrite Hbx.
Qed.

Lemma makeDict_Ret_inv {A} (f : Z → result A) d :
  makeDict f = Ret d → ∀ i, 0 ≤ i ≤ 8 → Py.dict_get d i = f i.
Proof.
  intros H i Hi. unfold makeDict in H.
  change (Py.range 9) with [0; 1; 2; 3; 4; 5; 6; 7; 8] in H. cbn [foldl] in H.
  destruct (f 0) eqn:E0; [|discriminate].
  destruct (f 1) eqn:E1; [|discriminate].
  destruct (f 2) eqn:E2; [|discriminate].
  destruct (f 3) eqn:E3; [|discriminate].
  destruct (f 4) eqn:E4; [|discriminate].
  destruct (f 5) eqn:E5; [|discriminate].
  destruct (f 6) eqn:E6; [|discriminate].
  destruct (f 7) eqn:E7; [|discriminate].
  destruct (f 8) eqn:E8; [|discriminate].
  injection H as <-. unfold Py.dict_get.
  enum9 i Hi;
    repeat (first [rewrite lookup_insert_eq | rewrite lookup_insert_ne by done]);
    congruence.
Qed.

(** The constructor leaves the views in step with the grid. *)
Lemma synced_init g p : init g = Ret p → board p = g ∧ synced p.
Proof.
  intros (Hb & _ & Hc & Hx)%init_Ret_inv. split; [done|].
  intros i Hi. rewrite Hb. split_and!.
  - unfold rows_get, get_row. by rewrite bool_decide_true, Hb.
  - by apply makeDict_Ret_inv.
  - by apply makeDict_Ret_inv.
Qed.

Lemma update_keeps_synced_witness :
  synced (update 0 2 4 (loaded sample_grid)).2.
Proof.
  refine (proj1 (proj2 (update_keeps_synced (loaded sample_grid) _ 0 2 4 _ _ _ _ _)));
    [ |apply (synced_init sample_grid); reflexivity|lia|lia|reflexivity].
  split; [reflexivity|]. repeat constructor.
Defined.

(** ** A successful call *)

(** C6. After a successful [update(r, c, val)] on a 9x9 grid, the grid
    holds [val] at [(r, c)]: the row [r], the column [c] and the box of the
    cell, each read back from the grid, show [val] at the position of the
    cell; every other cell of the grid holds the value it held before. *)
Theorem update_writes_cell (p p' : Puzzle) (r c val : Z) :
  grid9 (board p) → 0 ≤ r ≤ 8 → 0 ≤ c ≤ 8 →
  update r c val p = (Ret (), p') →
  cell (board p') (Z.to_nat r) (Z.to_nat c) = Some val ∧
  (∃ row, get_row (board p') r = Ret row ∧ Py.getitem row c = Ret val) ∧
  (∃ col, get_column (board p') c = Ret col ∧ Py.getitem col r = Ret val) ∧
  (∃ bx, get_box (board p') (get_boxIndex r c) = Ret bx ∧
         Py.getitem bx (box_offset r c) = Ret val) ∧
  (∀ i j, (i, j) ≠ (Z.to_nat r, Z.to_nat c) → cell (board p') i j = cell (board p) i j).
Proof.
  intros Hg Hr Hc Hu.
  apply update_Ret_inv in Hu as (Hval & _ & brow & col & bx & prev & Hat & -> & _);
    [|done..].
  destruct Hat as [Hrow Hprev _ _ _ _].
  destruct (box_of_cell r c Hr Hc) as (Hb & Hoff & Hbr & Hbc).
  assert (length brow = 9%nat) as Hlen by (by eapply (Forall_lookup_1 _ _ _ _ (proj2 Hg))).
  destruct (get_column_cells _ c Hg Hc) as (col0 & Hcol0 & Hcl & _).
  destruct (get_box_cells _ _ Hg Hb) as (bx0 & Hbx0 & Hbl & _).
  simpl. split_and!.
  - rewrite cell_insert by (done || lia). by rewrite decide_True.
  - exists (<[Z.to_nat c := val]> brow). split.
    + apply get_row_Ret; [lia|]. apply list_lookup_insert_eq. by eapply lookup_lt_Some.
    + apply getitem_Ret; [lia|]. apply list_lookup_insert_eq. lia.
  - exists (<[Z.to_nat r := val]> col0). split.
    + by rewrite get_column_insert, Hcol0, decide_True by done.
    + apply getitem_Ret; [lia|]. apply list_lookup_insert_eq. lia.
  - exists (<[Z.to_nat (box_offset r c) := val]> bx0). split.
    + by rewrite get_box_insert, Hbx0, decide_True by done.
    + apply getitem_Ret; [apply box_offset_nonneg|]. apply list_lookup_insert_eq. lia.
  - intros i j Hij. rewrite cell_insert by (done || lia).
    rewrite decide_False; [done|]. intros [-> ->]. done.
Qed.

Lemma grid9_sample : grid9 sample_grid.
Proof. split; [reflexivity|]. repeat constructor. Qed.

Lemma update_writes_cell_witness :
  cell (board (update 0 2 4 (loaded sample_grid)).2) 0 2 = Some 4.
Proof.
  refine (proj1 (update_writes_cell (loaded sample_grid) _ 0 2 4 _ _ _ _));
    [exact grid9_sample|lia|lia|reflexivity].
Defined.

(** ** Clearing a cell *)

Lemma nonzero_insert_zero (l : list Z) (i : nat) :
  nonzero (<[i := 0]> l) `sublist_of` nonzero l.
Proof.
  unfold nonzero. revert i. induction l as [|a l IH]; intros [|i]; simpl; try done.
  - rewrite filter_cons_False by (intros ?; done).
    rewrite filter_cons. case_decide; [by apply sublist_cons|done].
  - rewrite !filter_cons. case_decide; [by apply sublist_skip|done].
Qed.

Lemma unit_legal_clear (l : list Z) (i : nat) :
  NoDup (nonzero l) → has_repeat (nonzero (<[i := 0]> l)) = false.
Proof.
  intros Hnd. apply has_repeat_false.
  exact (sublist_NoDup _ _ Hnd (nonzero_insert_zero l i)).
Qed.

(** C10. Clearing never conflicts: on a board whose 9x9 grid is legal
    and whose views agree with the grid, [update(r, c, 0)] on an editable
    cell succeeds. *)
Theorem update_clear_succeeds (p : Puzzle) (r c : Z) :
  grid9 (board p) → legal (board p) → synced p →
  0 ≤ r ≤ 8 → 0 ≤ c ≤ 8 → editable r c p →
  ∃ p', update r c 0 p = (Ret (), p').
Proof.
  intros Hg Hl Hs Hr Hc He.
  destruct (synced_at_cell p r c Hg Hs Hr Hc)
    as (brow & col & bx & prev & Hat & _ & _ & _ & Hrow & Hcol & Hbx).
  destruct (box_of_cell r c Hr Hc) as (Hb & _).
  destruct (legal_units _ r Hl Hr) as (Hlr & _).
  destruct (legal_units _ c Hl Hc) as (_ & Hlc & _).
  destruct (legal_units _ _ Hl Hb) as (_ & _ & Hlb).
  rewrite Hrow in Hlr. rewrite Hcol in Hlc. rewrite Hbx in Hlb. simpl in *.
  exists (staged r c 0 brow col bx p).
  eapply update_success; [done|done|lia|done|exact Hat|].
  erewrite staged_is_valid by done. unfold units_ok.
  by rewrite !unit_legal_clear.
Qed.

Lemma legal_sample : legal sample_grid.
Proof. by apply (bool_decide_unpack _). Qed.

Lemma update_clear_succeeds_witness :
  ∃ p', update 0 2 0 (loaded sample_grid) = (Ret (), p').
Proof.
  apply update_clear_succeeds;
    [exact grid9_sample|exact legal_sample
    |exact (proj2 (synced_init sample_grid _ loaded_sample))|lia|lia|].
  eexists. split; reflexivity.
Defined.

(** ** What [is_valid] checks *)

Lemma units_ok_true row col bx :
  units_ok row col bx = true ↔
  NoDup (nonzero row) ∧ NoDup (nonzero col) ∧ NoDup (nonzero bx).
Proof.
  unfold units_ok. rewrite !andb_true_iff, !negb_true_iff, !has_repeat_false. tauto.
Qed.




(** ** The box index *)

(** C7. [get_boxIndex(r, c)] is [c/3 + (r/3)*3] with integer division;
    the four corner and centre values are as listed; for a cell of the
    grid the index is in [0,8], numbers the boxes left to right within a
    band and band by band from the top, and names the box in which
    [get_box] finds the cell. *)
Theorem get_boxIndex_spec :
  (∀ r c, get_boxIndex r c = c / 3 + r / 3 * 3) ∧
  get_boxIndex 0 0 = 0 ∧ get_boxIndex 0 8 = 2 ∧ get_boxIndex 8 8 = 8 ∧
  get_boxIndex 4 4 = 4 ∧
  (∀ r c, 0 ≤ r ≤ 8 → 0 ≤ c ≤ 8 →
     0 ≤ get_boxIndex r c ≤ 8 ∧
     get_boxIndex r c / 3 = r / 3 ∧ get_boxIndex r c `mod` 3 = c / 3) ∧
  (∀ g r c, grid9 g → 0 ≤ r ≤ 8 → 0 ≤ c ≤ 8 →
     ∃ bx, get_box g (get_boxIndex r c) = Ret bx ∧
           bx !! Z.to_nat (box_offset r c) = cell g (Z.to_nat r) (Z.to_nat c)).
Proof.
  split_and!; try reflexivity.
  - intros r c Hr Hc. enum9 r Hr; enum9 c Hc; vm_compute; repeat split; discriminate.
  - intros g r c Hg Hr Hc.
    destruct (box_of_cell r c Hr Hc) as (Hb & Hoff & Hbr & Hbc).
    destruct (get_box_cells g _ Hg Hb) as (bx & Hbx & _ & Hcells).
    exists bx. split; [done|]. by rewrite Hcells, Hbr, Hbc.
Qed.

Lemma get_boxIndex_spec_witness :
  ∃ bx, get_box sample_grid (get_boxIndex 4 5) = Ret bx ∧
        bx !! Z.to_nat (box_offset 4 5) = Some 3.
Proof.
  refine (proj2 (proj2 (proj2 (proj2 (proj2 (proj2 get_boxIndex_spec)))))
            sample_grid 4 5 grid9_sample _ _); lia.
Defined.

(** ** The rollback *)

(** The rejected call, in full: the grid, the rows and the columns get
    [prev] back; the box dictionary gets it at key [box_offset r c],
    position [get_boxIndex r c]. *)
Lemma update_conflict r c val brow col bx prev bx2 p :
  0 ≤ r ≤ 8 → 0 ≤ c ≤ 8 → 0 ≤ val ≤ 9 →
  editable r c p → at_cell r c p brow col bx prev →
  col !! Z.to_nat r = Some prev →
  is_valid r c (staged r c val brow col bx p) = Ret false →
  boxes (staged r c val brow col bx p) !! box_offset r c = Some bx2 →
  (Z.to_nat (get_boxIndex r c) < length bx2)%nat →
  update r c val p =
    (Raise ConflictValue,
     mkPuzzle (board p) (columns p)
       (<[box_offset r c := <[Z.to_nat (get_boxIndex r c) := prev]> bx2]>
          (boxes (staged r c val brow col bx p)))
       (mask p)).
Proof.
  intros Hr Hc Hval (mrow & Hmrow & Hm) Hat Hcp Hok Hbx2 Hlen2.
  pose proof Hat as [Hrow Hprev Hcol Hcl Hbx Hbl].
  assert (Z.to_nat r < length (board p))%nat as Hrl by (by eapply lookup_lt_Some).
  assert (Z.to_nat c < length brow)%nat as Hcl' by (by eapply lookup_lt_Some).
  unfold update. rewrite bool_decide_true by (by apply legal_value). cbn [negb].
  erewrite bind_Ret; [|unfold read; f_equal; apply getitem2_Ret; [lia..|eauto]].
  rewrite bool_decide_false by done. cbv beta iota.
  erewrite bind_Ret; [|unfold read; f_equal; apply getitem2_Ret; [lia..|eauto]].
  erewrite bind_Ret; [|apply write_Ret, rows_setitem_Ret; [lia..|]; eexists; split_and!; [done|done|done]].
  erewrite bind_Ret; [|apply write_Ret, columns_setitem_Ret; [lia|]; eexists; split_and!; [done..|reflexivity]].
  erewrite bind_Ret; [|apply write_Ret, boxes_setitem_Ret; [apply box_offset_nonneg|]; eexists; split_and!; [done..|reflexivity]].
  erewrite bind_Ret; [|unfold read; f_equal; exact Hok].
  cbv beta iota.
  erewrite bind_Ret; [|apply write_Ret, rows_setitem_Ret; [lia..|]; eexists; split_and!; [| |reflexivity]].
  2:{ simpl. by apply list_lookup_insert_eq. }
  2:{ by rewrite length_insert. }
  erewrite bind_Ret; [|apply write_Ret, columns_setitem_Ret; [lia|]; eexists; split_and!; [| |reflexivity]].
  2:{ simpl. apply lookup_insert_eq. }
  2:{ by rewrite length_insert. }
  erewrite bind_Ret; [|apply write_Ret, boxes_setitem_Ret; [unfold get_boxIndex; Z.div_mod_to_equations; lia|]; eexists; split_and!; [exact Hbx2|exact Hlen2|reflexivity]].
  unfold raise. f_equal. simpl. f_equal.
  - rewrite !list_insert_insert_eq, (list_insert_id brow) by done.
    by apply list_insert_id.
  - rewrite insert_insert_eq, list_insert_insert_eq, (list_insert_id col) by done.
    by apply insert_id.
Qed.

(** Where the position within the box equals the box index (the cells
    whose row and column are both in [{0, 4, 8}]), the rollback is
    complete on a board whose views agree with the grid at the cell. *)
Lemma update_conflict_diagonal r c val brow col bx prev p :
  0 ≤ r ≤ 8 → 0 ≤ c ≤ 8 → 0 ≤ val ≤ 9 →
  editable r c p → at_cell r c p brow col bx prev →
  col !! Z.to_nat r = Some prev → bx !! Z.to_nat (box_offset r c) = Some prev →
  box_offset r c = get_boxIndex r c →
  is_valid r c (staged r c val brow col bx p) = Ret false →
  update r c val p = (Raise ConflictValue, p).
Proof.
  intros Hr Hc Hval He Hat Hcp Hbp Hdiag Hok.
  pose proof Hat as [_ _ _ _ Hbx Hbl].
  erewrite update_conflict; [|done..| |].
  - f_equal. destruct p as [bd cs bs mk]. unfold staged. simpl in *.
    rewrite Hdiag in *. f_equal.
    rewrite insert_insert_eq, list_insert_insert_eq, (list_insert_id bx) by done.
    by apply insert_id.
  - simpl. rewrite Hdiag. apply lookup_insert_eq.
  - rewrite length_insert, <- Hdiag. exact Hbl.
Qed.

(** C1, on the board of the specification's rollback test (row 0 is
    [5,0,0,0,0,0,0,0,0]): [update(0, 1, 5)] raises [ConflictValue]; the
    grid, the rows and the columns are as before, but the boxes are not.
    The tentative write went to [boxes[0][1]] and the write-back went to
    [boxes[1][0]], so box 0 still shows the rejected 5.  A later legal
    move in that box, [update(1, 1, 3)], is then rejected. *)
Theorem update_conflict_box_view :
  let p := loaded corner_grid in
  init corner_grid = Ret p ∧
  ∃ p', update 0 1 5 p = (Raise ConflictValue, p') ∧
        board p' = board p ∧ columns p' = columns p ∧ mask p' = mask p ∧
        boxes p !! 0 = Some [5; 0; 0; 0; 0; 0; 0; 0; 0] ∧
        boxes p' !! 0 = Some [5; 5; 0; 0; 0; 0; 0; 0; 0] ∧
        p' ≠ p ∧
        (update 1 1 3 p).1 = Ret () ∧
        (update 1 1 3 p').1 = Raise ConflictValue.
Proof.
  split; [vm_compute; reflexivity|]. eexists. split; [vm_compute; reflexivity|].
  split_and!; [vm_compute; reflexivity..| |vm_compute; reflexivity|vm_compute; reflexivity].
  intros Heq. apply (f_equal (λ q, boxes q !! 0)) in Heq.
  vm_compute in Heq. discriminate.
Qed.

(** C2, on [lone_grid] (a single 5, at row 0 and column 3), which is
    legal: [update(0, 1, 5)] is rejected and its rollback writes 0 over
    the 5 in the box dictionary ([boxes[1][0]]); [update(1, 4, 5)] is then
    accepted, and the grid holds 5 twice in box 1. *)
Theorem update_commits_illegal_grid :
  let p := loaded lone_grid in
  init lone_grid = Ret p ∧ grid9 lone_grid ∧ legal lone_grid ∧
  ∃ p', run [(0, 1, 5); (1, 4, 5)] p = ([Raise ConflictValue; Ret ()], p') ∧
        cell (board p') 0 3 = Some 5 ∧ cell (board p') 1 4 = Some 5 ∧
        get_boxIndex 0 3 = 1 ∧ get_boxIndex 1 4 = 1 ∧
        get_box (board p') 1 = Ret [5; 0; 0; 0; 5; 0; 0; 0; 0] ∧
        ¬ legal (board p').
Proof.
  split; [vm_compute; reflexivity|]. split; [split; [reflexivity|repeat constructor]|].
  split; [apply (bool_decide_unpack _); vm_compute; exact I|].
  eexists. split; [vm_compute; reflexivity|].
  split_and!; [vm_compute; reflexivity..|].
  apply (bool_decide_eq_false_1 _). vm_compute. reflexivity.
Qed.

(** ** Contracts of method bodies *)

Section contracts.
Context {A B : Type}.
Implicit Types (P : Puzzle → Prop) (E : exn → Puzzle → Prop).

Lemma hoare_ret P (Q : A → Puzzle → Prop) E (a : A) :
  (∀ p, P p → Q a p) → hoare P (ret a) Q E.
Proof. intros H p Hp. by apply H. Qed.

Lemma hoare_raise P (Q : A → Puzzle → Prop) E (e : exn) :
  (∀ p, P p → E e p) → hoare P (raise e) Q E.
Proof. intros H p Hp. by apply H. Qed.

Lemma hoare_read P (Q : A → Puzzle → Prop) E (f : Puzzle → result A) :
  (∀ p a, P p → f p = Ret a → Q a p) →
  (∀ p e, P p → f p = Raise e → E e p) →
  hoare P (read f) Q E.
Proof.
  intros HQ HE p Hp. unfold read. destruct (f p) eqn:Hf; [by eapply HQ|by eapply HE].
Qed.

Lemma hoare_bind P (R : A → Puzzle → Prop) (Q : B → Puzzle → Prop) E
    (m : M A) (k : A → M B) :
  hoare P m R E → (∀ a, hoare (R a) (k a) Q E) → hoare P (bind m k) Q E.
Proof.
  intros Hm Hk p Hp. unfold bind. specialize (Hm p Hp).
  destruct (m p) as [[a|e] p1]; [by apply Hk|done].
Qed.

Lemma hoare_pure P (φ : Prop) (Q : A → Puzzle → Prop) E (m : M A) :
  (φ → hoare (λ p, P p ∧ φ) m Q E) → hoare (λ p, P p ∧ φ) m Q E.
Proof. intros H p [Hp Hφ]. by apply H. Qed.

Lemma hoare_weaken P P' (Q : A → Puzzle → Prop) E (m : M A) :
  (∀ p, P' p → P p) → hoare P m Q E → hoare P' m Q E.
Proof. intros HP Hm p Hp. by apply Hm, HP. Qed.

End contracts.

Lemma hoare_write (P : Puzzle → Prop) (Q : () → Puzzle → Prop) E
    (f : Puzzle → result Puzzle) :
  (∀ p p', P p → f p = Ret p' → Q () p') →
  (∀ p e, P p → f p = Raise e → E e p) →
  hoare P (write f) Q E.
Proof.
  intros HQ HE p Hp. unfold write. destruct (f p) eqn:Hf; [by eapply HQ|by eapply HE].
Qed.

(** ** Indexing with any integer *)

Lemma index_Some len i n : Py.index len i = Some n → (n < len)%nat.
Proof.
  unfold Py.index. repeat case_bool_decide; intros [= <-]; lia.
Qed.

Lemma getitem_Ret_any {A} (l : list A) i x :
  Py.getitem l i = Ret x → ∃ n, l !! n = Some x.
Proof.
  unfold Py.getitem. destruct (Py.index _ i) as [n|]; [|discriminate].
  destruct (l !! n) eqn:Hn; [|discriminate]. intros [= <-]. eauto.
Qed.

Lemma setitem_Ret_any {A} (l : list A) i x l' :
  Py.setitem l i x = Ret l' → ∃ n, (n < length l)%nat ∧ l' = <[n := x]> l.
Proof.
  unfold Py.setitem. destruct (Py.index _ i) as [n|] eqn:Hn; [|discriminate].
  intros [= <-]. apply index_Some in Hn. eauto.
Qed.

Lemma getitem_Raise {A} (l : list A) i e : Py.getitem l i = Raise e → e = IndexError.
Proof.
  unfold Py.getitem. destruct (Py.index _ i) as [n|]; [|congruence].
  destruct (l !! n); congruence.
Qed.

Lemma setitem_Raise {A} (l : list A) i x e : Py.setitem l i x = Raise e → e = IndexError.
Proof. unfold Py.setitem. destruct (Py.index _ i); congruence. Qed.

Lemma board_setitem_Ret_any r c val p p' :
  board_setitem r c val p = Ret p' →
  ∃ n m row, board p !! n = Some row ∧ (m < length row)%nat ∧
             p' = mkPuzzle (<[n := <[m := val]> row]> (board p))
                           (columns p) (boxes p) (mask p).
Proof.
  unfold board_setitem.
  intros (row & Hrow & (row' & Hset & (b' & Hset' & [= <-])%result_bind_Ret_inv)%result_bind_Ret_inv)%result_bind_Ret_inv.
  unfold Py.getitem in Hrow. unfold Py.setitem in Hset'.
  destruct (Py.index _ r) as [n|]; [|discriminate].
  destruct (board p !! n) as [row0|] eqn:Hn; [|discriminate].
  injection Hrow as ->. injection Hset' as <-.
  apply setitem_Ret_any in Hset as (m & Hm & ->). by exists n, m, row.
Qed.

Lemma rows_setitem_Ret_any r c val p p' :
  rows_setitem r c val p = Ret p' →
  ∃ n m row, board p !! n = Some row ∧ (m < length row)%nat ∧
             p' = mkPuzzle (<[n := <[m := val]> row]> (board p))
                           (columns p) (boxes p) (mask p).
Proof.
  unfold rows_setitem. case_bool_decide; [apply board_setitem_Ret_any|discriminate].
Qed.

Lemma columns_setitem_Ret_any k i val p p' :
  columns_setitem k i val p = Ret p' →
  ∃ m lst, columns p !! k = Some lst ∧ (m < length lst)%nat ∧
           p' = mkPuzzle (board p) (<[k := <[m := val]> lst]> (columns p))
                         (boxes p) (mask p).
Proof.
  unfold columns_setitem.
  intros (lst & Hget%dict_get_Ret & (lst' & Hset & [= <-])%result_bind_Ret_inv)%result_bind_Ret_inv.
  apply setitem_Ret_any in Hset as (m & Hm & ->). by exists m, lst.
Qed.

Lemma boxes_setitem_Ret_any k i val p p' :
  boxes_setitem k i val p = Ret p' →
  ∃ m lst, boxes p !! k = Some lst ∧ (m < length lst)%nat ∧
           p' = mkPuzzle (board p) (columns p)
                         (<[k := <[m := val]> lst]> (boxes p)) (mask p).
Proof.
  unfold boxes_setitem.
  intros (lst & Hget%dict_get_Ret & (lst' & Hset & [= <-])%result_bind_Ret_inv)%result_bind_Ret_inv.
  apply setitem_Ret_any in Hset as (m & Hm & ->). by exists m, lst.
Qed.

(** ** Invariants of every call *)

Lemma dict9_insert d k m v lst :
  dict9 d → d !! k = Some lst → dict9 (<[k := <[m := v]> lst]> d).
Proof.
  intros Hd Hk k'. specialize (Hd k') as Hk'.
  destruct (decide (k' = k)) as [->|Hne].
  - rewrite lookup_insert_eq. case_bool_decide; [|congruence].
    destruct Hk' as (l & Hl & Hlen). exists (<[m := v]> lst). split; [done|].
    rewrite length_insert. congruence.
  - by rewrite lookup_insert_ne.
Qed.

Lemma digits_insert g n m v row :
  digits g → g !! n = Some row → 0 ≤ v ≤ 9 → digits (<[n := <[m := v]> row]> g).
Proof.
  intros Hg Hrow Hv. apply Forall_insert; [done|].
  apply Forall_insert; [|done]. by eapply (Forall_lookup_1 _ _ _ _ Hg).
Qed.

Lemma digits_lookup g n m row v :
  digits g → g !! n = Some row → row !! m = Some v → 0 ≤ v ≤ 9.
Proof.
  intros Hg Hrow Hv.
  exact (Forall_lookup_1 _ _ _ _ (Forall_lookup_1 _ _ _ _ Hg Hrow) Hv).
Qed.

Lemma sound_board_write p n m row v :
  sound p → board p !! n = Some row → 0 ≤ v ≤ 9 →
  sound (mkPuzzle (<[n := <[m := v]> row]> (board p)) (columns p) (boxes p) (mask p)).
Proof.
  intros [(Hg & Hc & Hb & Hm) Hd] Hrow Hv. split; [split_and!; try done|]; simpl.
  - by apply grid9_insert.
  - by apply digits_insert.
Qed.

Lemma sound_columns_write p k m lst v :
  sound p → columns p !! k = Some lst →
  sound (mkPuzzle (board p) (<[k := <[m := v]> lst]> (columns p)) (boxes p) (mask p)).
Proof.
  intros [(Hg & Hc & Hb & Hm) Hd] Hk. split; [split_and!; try done|done]; simpl.
  by apply dict9_insert.
Qed.

Lemma sound_boxes_write p k m lst v :
  sound p → boxes p !! k = Some lst →
  sound (mkPuzzle (board p) (columns p) (<[k := <[m := v]> lst]> (boxes p)) (mask p)).
Proof.
  intros [(Hg & Hc & Hb & Hm) Hd] Hk. split; [split_and!; try done|done]; simpl.
  by apply dict9_insert.
Qed.

Lemma update_sound_contract r c val :
  hoare sound (update r c val) (λ _, sound) (λ _, sound).
Proof.
  unfold update. case_bool_decide as Hval; cbn [negb]; [|by apply hoare_raise].
  apply legal_value in Hval.
  eapply hoare_bind with (R := λ _, sound); [by apply hoare_read|]. intros m.
  case_bool_decide; [by apply hoare_raise|].
  eapply hoare_bind with (R := λ prev p, sound p ∧ 0 ≤ prev ≤ 9).
  { apply hoare_read; [|done]. intros p prev Hp Hprev. split; [done|].
    apply result_bind_Ret_inv in Hprev as (row & Hrow & Hprev).
    apply getitem_Ret_any in Hrow as (n & Hn). apply getitem_Ret_any in Hprev as (k & Hk).
    destruct Hp as [_ Hd]. by eapply digits_lookup. }
  intros prev.
  assert (∀ v, 0 ≤ v ≤ 9 → hoare (λ p, sound p ∧ 0 ≤ prev ≤ 9)
            (write (rows_setitem r c v)) (λ _ p, sound p ∧ 0 ≤ prev ≤ 9) (λ _, sound)) as Hrows.
  { intros v Hv. apply hoare_write; [|by intros ?? []].
    intros p p' [Hp ?] (n & k & row & Hrow & _ & ->)%rows_setitem_Ret_any.
    split; [|done]. by apply sound_board_write. }
  assert (∀ k i v, hoare (λ p, sound p ∧ 0 ≤ prev ≤ 9)
            (write (columns_setitem k i v)) (λ _ p, sound p ∧ 0 ≤ prev ≤ 9) (λ _, sound)) as Hcols.
  { intros k i v. apply hoare_write; [|by intros ?? []].
    intros p p' [Hp ?] (n & lst & Hk & _ & ->)%columns_setitem_Ret_any.
    split; [|done]. by apply sound_columns_write. }
  assert (∀ k i v, hoare (λ p, sound p ∧ 0 ≤ prev ≤ 9)
            (write (boxes_setitem k i v)) (λ _ p, sound p ∧ 0 ≤ prev ≤ 9) (λ _, sound)) as Hboxes.
  { intros k i v. apply hoare_write; [|by intros ?? []].
    intros p p' [Hp ?] (n & lst & Hk & _ & ->)%boxes_setitem_Ret_any.
    split; [|done]. by apply sound_boxes_write. }
  eapply hoare_bind; [by apply Hrows|intros []].
  eapply hoare_bind; [by apply Hcols|intros []].
  eapply hoare_bind; [by apply Hboxes|intros []].
  eapply hoare_bind with (R := λ _ p, sound p ∧ 0 ≤ prev ≤ 9);
    [apply hoare_read; [done|by intros ?? []]|intros ok].
  apply hoare_pure. intros Hprev. destruct ok.
  - eapply hoare_bind with (R := λ _, sound); [|intros []; by apply hoare_ret].
    apply hoare_write; [|by intros ?? []].
    intros p p' [Hp ?] (n & k & row & Hrow & _ & ->)%board_setitem_Ret_any.
    by apply sound_board_write.
  - eapply hoare_bind; [by apply Hrows|intros []].
    eapply hoare_bind; [by apply Hcols|intros []].
    eapply hoare_bind; [by apply Hboxes|intros []].
    apply hoare_raise. by intros ? [].
Qed.

Lemma update_sound r c val p : sound p → sound (update r c val p).2.
Proof.
  intros Hp. pose proof (update_sound_contract r c val p Hp) as H.
  by destruct (update r c val p) as [[[]|e] p'].
Qed.

Lemma run_sound calls p : sound p → sound (run calls p).2.
Proof.
  revert p. induction calls as [|[[r c] val] calls IH]; intros p Hp; [done|].
  simpl. pose proof (update_sound r c val p Hp) as Hu.
  destruct (update r c val p) as [o p1]. simpl in Hu.
  specialize (IH p1 Hu). by destruct (run calls p1) as [os p2].
Qed.

(** ** The constructor *)

Lemma makeDict_Ret_keys {A} (f : Z → result A) d :
  makeDict f = Ret d →
  ∀ k, if bool_decide (0 ≤ k ≤ 8) then ∃ v, f k = Ret v ∧ d !! k = Some v
       else d !! k = None.
Proof.
  intros H k. pose proof (makeDict_Ret_inv f d H) as Hget.
  unfold makeDict in H.
  change (Py.range 9) with [0; 1; 2; 3; 4; 5; 6; 7; 8] in H. cbn [foldl] in H.
  destruct (f 0) eqn:E0; [|discriminate].
  destruct (f 1) eqn:E1; [|discriminate].
  destruct (f 2) eqn:E2; [|discriminate].
  destruct (f 3) eqn:E3; [|discriminate].
  destruct (f 4) eqn:E4; [|discriminate].
  destruct (f 5) eqn:E5; [|discriminate].
  destruct (f 6) eqn:E6; [|discriminate].
  destruct (f 7) eqn:E7; [|discriminate].
  destruct (f 8) eqn:E8; [|discriminate].
  injection H as <-.
  case_bool_decide as Hk.
  - specialize (Hget k Hk). unfold Py.dict_get in Hget.
    enum9 k Hk; eexists; (split; [eassumption|]);
      repeat (first [rewrite lookup_insert_eq | rewrite lookup_insert_ne by done]); done.
  - repeat (rewrite lookup_insert_ne by lia). done.
Qed.

Lemma makeDict_Ret_all {A} (f : Z → result A) :
  (∀ k, 0 ≤ k ≤ 8 → ∃ v, f k = Ret v) → ∃ d, makeDict f = Ret d.
Proof.
  intros Hall. unfold makeDict.
  change (Py.range 9) with [0; 1; 2; 3; 4; 5; 6; 7; 8]. cbn [foldl].
  destruct (Hall 0) as [v0 ->]; [lia|]. destruct (Hall 1) as [v1 ->]; [lia|].
  destruct (Hall 2) as [v2 ->]; [lia|]. destruct (Hall 3) as [v3 ->]; [lia|].
  destruct (Hall 4) as [v4 ->]; [lia|]. destruct (Hall 5) as [v5 ->]; [lia|].
  destruct (Hall 6) as [v6 ->]; [lia|]. destruct (Hall 7) as [v7 ->]; [lia|].
  destruct (Hall 8) as [v8 ->]; [lia|]. eexists. reflexivity.
Qed.

Lemma makeDict_Raise_first {A} (f : Z → result A) i e :
  0 ≤ i ≤ 8 → f i = Raise e → (∀ j, 0 ≤ j < i → ∃ v, f j = Ret v) →
  makeDict f = Raise e.
Proof.
  intros Hi He Hprev. unfold makeDict.
  change (Py.range 9) with [0; 1; 2; 3; 4; 5; 6; 7; 8]. cbn [foldl].
  enum9 i Hi; rewrite He;
    repeat match goal with
    | |- context [f ?j] => destruct (Hprev j) as [? ->]; [lia|]
    end; reflexivity.
Qed.

(** X1. [makeDict(func)] calls [func] on [0..8] in order.  If it
    returns, the dictionary has exactly the keys [0..8], each bound to what
    [func] returned for it; if [func] raises at some index after returning
    at all smaller ones, [makeDict] raises the same exception. *)
Theorem makeDict_spec {A} (f : Z → result A) :
  (∀ d, makeDict f = Ret d →
        ∀ k, if bool_decide (0 ≤ k ≤ 8) then ∃ v, f k = Ret v ∧ d !! k = Some v
             else d !! k = None) ∧
  ((∀ k, 0 ≤ k ≤ 8 → ∃ v, f k = Ret v) → ∃ d, makeDict f = Ret d) ∧
  (∀ i e, 0 ≤ i ≤ 8 → f i = Raise e → (∀ j, 0 ≤ j < i → ∃ v, f j = Ret v) →
          makeDict f = Raise e).
Proof.
  split_and!.
  - apply makeDict_Ret_keys.
  - apply makeDict_Ret_all.
  - intros i e. apply makeDict_Raise_first.
Qed.

Lemma makeDict_spec_witness :
  makeDict (get_row [[1]; [2]; [3]]) = Raise IndexError.
Proof.
  refine (proj2 (proj2 (makeDict_spec (get_row [[1]; [2]; [3]]))) 3 IndexError _ _ _);
    [lia|reflexivity|].
  intros j Hj. assert (j = 0 ∨ j = 1 ∨ j = 2) as [->|[->| ->]] by lia; by eexists.
Defined.

Lemma result_bind_Ret {A B} (a : A) (k : A → result B) : Ret a ≫= k = k a.
Proof. reflexivity. Qed.

Lemma result_bind_Raise_inv {A B} (m : result A) (k : A → result B) e :
  m ≫= k = Raise e → m = Raise e ∨ ∃ a, m = Ret a ∧ k a = Raise e.
Proof. intros H. destruct m; [right; eauto|left]. by injection H as ->. Qed.

Lemma get_column_Ret g k :
  0 ≤ k → rows_reach g (S (Z.to_nat k)) → ∃ col, get_column g k = Ret col.
Proof.
  intros Hk Hg. unfold get_column.
  change (Py.range 9) with [0; 1; 2; 3; 4; 5; 6; 7; 8]. cbn [foldl mbind result_bind mret result_ret].
  repeat match goal with
  | |- context [Py.getitem g ?i] =>
      let row := fresh "row" in let Hrow := fresh "Hrow" in let Hlen := fresh "Hlen" in
      let v := fresh "v" in let Hv := fresh "Hv" in
      destruct (Hg (Z.to_nat i)) as (row & Hrow & Hlen); [lia|];
      destruct (lookup_lt_is_Some_2 row (Z.to_nat k)) as [v Hv]; [lia|];
      rewrite (getitem_nonneg g i), Hrow by lia; cbn [mbind result_bind mret result_ret];
      rewrite (getitem_nonneg row k), Hv by lia; cbn [mbind result_bind mret result_ret]
  end.
  eexists. reflexivity.
Qed.

Lemma get_column_Ret_inv g k col :
  0 ≤ k → get_column g k = Ret col → rows_reach g (S (Z.to_nat k)).
Proof.
  intros Hk H. unfold get_column in H.
  change (Py.range 9) with [0; 1; 2; 3; 4; 5; 6; 7; 8] in H. cbn [foldl mbind result_bind mret result_ret] in H.
  repeat match type of H with
  | context [Py.getitem g ?i] =>
      let Hrow := fresh "Hrow" in
      rewrite (getitem_nonneg g i) in H by lia;
      destruct (g !! Z.to_nat i) as [?row|] eqn:Hrow; [|discriminate];
      cbn [mbind result_bind mret result_ret] in H;
      match type of H with
      | context [Py.getitem ?row k] =>
          let Hv := fresh "Hv" in
          rewrite (getitem_nonneg row k) in H by lia;
          destruct (row !! Z.to_nat k) as [?v|] eqn:Hv; [|discriminate];
          apply lookup_lt_Some in Hv; cbn [mbind result_bind mret result_ret] in H
      end
  end.
  intros i Hi. do 9 (destruct i as [|i]; [eexists; split; [eassumption|lia]|]). lia.
Qed.

Lemma get_column_Raise g k e : get_column g k = Raise e → e = IndexError.
Proof.
  unfold get_column.
  change (Py.range 9) with [0; 1; 2; 3; 4; 5; 6; 7; 8]. cbn [foldl mbind result_bind mret result_ret].
  intros H.
  repeat match type of H with
  | context [Py.getitem g ?i] =>
      let E := fresh "E" in
      destruct (Py.getitem g i) as [?row|?e] eqn:E; cbn [mbind result_bind mret result_ret] in H;
        [|apply getitem_Raise in E; congruence];
      match type of H with
      | context [Py.getitem ?row k] =>
          let E' := fresh "E" in
          destruct (Py.getitem row k) as [?v|?e] eqn:E'; cbn [mbind result_bind mret result_ret] in H;
            [|apply getitem_Raise in E'; congruence]
      end
  end.
  discriminate.
Qed.

Lemma get_box_Ret g k :
  0 ≤ k ≤ 8 → (9 ≤ length g)%nat → ∃ bx, get_box g k = Ret bx.
Proof.
  intros Hk Hg. unfold get_box.
  change (Py.range 3) with [0; 1; 2]. cbn [foldl mbind result_bind mret result_ret].
  enum9 k Hk.
  all: repeat match goal with
  | |- context [Py.getitem ?gg ?i] =>
      let row := fresh "row" in let Hrow := fresh "Hrow" in
      destruct (lookup_lt_is_Some_2 gg (Z.to_nat i)) as [row Hrow];
        [assert (Z.to_nat i < 9)%nat by (vm_compute; lia); lia|];
      rewrite (getitem_nonneg gg i), Hrow by (by vm_compute);
      cbn [mbind result_bind mret result_ret]
  end.
  all: eexists; reflexivity.
Qed.

Lemma get_box_Raise g k e : get_box g k = Raise e → e = IndexError.
Proof.
  unfold get_box. change (Py.range 3) with [0; 1; 2]. cbn [foldl mbind result_bind mret result_ret].
  intros H.
  repeat match type of H with
  | context [Py.getitem g ?i] =>
      let E := fresh "E" in
      destruct (Py.getitem g i) as [?row|?e] eqn:E; cbn [mbind result_bind mret result_ret] in H;
        [|apply getitem_Raise in E; congruence]
  end.
  discriminate.
Qed.

Lemma makeDict_Raise {A} (f : Z → result A) e :
  makeDict f = Raise e → ∃ i, 0 ≤ i ≤ 8 ∧ f i = Raise e.
Proof.
  unfold makeDict. change (Py.range 9) with [0; 1; 2; 3; 4; 5; 6; 7; 8]. cbn [foldl mbind result_bind mret result_ret].
  intros H.
  repeat match type of H with
  | context [f ?i] =>
      let E := fresh "E" in
      destruct (f i) as [?v|?e] eqn:E; cbn [mbind result_bind mret result_ret] in H;
        [|injection H as ->; exists i; split; [lia|done]]
  end.
  discriminate.
Qed.

Lemma rows_reach_length g n : rows_reach g n → (9 ≤ length g)%nat.
Proof.
  intros Hg. destruct (Hg 8%nat) as (row & Hrow & _); [lia|].
  apply lookup_lt_Some in Hrow. lia.
Qed.

Lemma rows_reach_le g n m : (m ≤ n)%nat → rows_reach g n → rows_reach g m.
Proof.
  intros Hmn Hg i Hi. destruct (Hg i Hi) as (row & Hrow & Hlen).
  exists row. split; [done|lia].
Qed.

Lemma grid9_rows_reach g : grid9 g → rows_reach g 9.
Proof.
  intros [Hlen Hall] i Hi.
  destruct (lookup_lt_is_Some_2 g i) as [row Hrow]; [lia|].
  exists row. split; [done|]. by rewrite (Forall_lookup_1 _ _ _ _ Hall Hrow).
Qed.

Lemma init_Ret_reach g p : init g = Ret p → rows_reach g 9.
Proof.
  intros (_ & _ & Hc & _)%init_Ret_inv.
  pose proof (makeDict_Ret_keys _ _ Hc 8) as Hk.
  rewrite bool_decide_true in Hk by lia. destruct Hk as (col & Hcol & _).
  by apply get_column_Ret_inv in Hcol.
Qed.

Lemma init_reach_Ret g : rows_reach g 9 → ∃ p, init g = Ret p.
Proof.
  intros Hg. unfold init.
  destruct (makeDict_Ret_all (get_row g)) as [rs ->].
  { intros k Hk. destruct (Hg (Z.to_nat k)) as (row & Hrow & _); [lia|].
    exists row. by apply get_row_Ret; [lia|]. }
  destruct (makeDict_Ret_all (get_column g)) as [cs ->].
  { intros k Hk. apply get_column_Ret; [lia|].
    eapply rows_reach_le; [|done]. lia. }
  destruct (makeDict_Ret_all (get_box g)) as [bs ->].
  { intros k Hk. apply get_box_Ret; [done|]. by eapply rows_reach_length. }
  eexists. reflexivity.
Qed.

Lemma init_Raise g e : init g = Raise e → e = IndexError.
Proof.
  unfold init. intros H.
  apply result_bind_Raise_inv in H as [H|(rs & _ & H)].
  { apply makeDict_Raise in H as (i & _ & H). by apply getitem_Raise in H. }
  apply result_bind_Raise_inv in H as [H|(cs & _ & H)].
  { apply makeDict_Raise in H as (i & _ & H). by apply get_column_Raise in H. }
  apply result_bind_Raise_inv in H as [H|(bs & _ & H)]; [|discriminate].
  apply makeDict_Raise in H as (i & _ & H). by apply get_box_Raise in H.
Qed.

(** X2. The constructor returns exactly when the first nine rows of the
    loaded grid exist and have at least nine cells each (longer grids and
    longer rows are accepted as they are); otherwise it raises
    [IndexError], and nothing else.  When it returns, the board holds the
    grid itself, the mask marks the empty cells, and the views agree with
    the grid. *)
Theorem init_spec (g : list (list Z)) :
  ((∃ p, init g = Ret p) ↔ rows_reach g 9) ∧
  (∀ e, init g = Raise e → e = IndexError) ∧
  (∀ p, init g = Ret p → board p = g ∧ mask p = get_mask g ∧ synced p).
Proof.
  split_and!.
  - split; [intros [p Hp]; by eapply init_Ret_reach|apply init_reach_Ret].
  - apply init_Raise.
  - intros p Hp. pose proof (synced_init g p Hp) as [? ?].
    apply init_Ret_inv in Hp as (_ & ? & _). done.
Qed.

Lemma get_mask_mask9 g : grid9 g → mask9 (get_mask g).
Proof.
  intros [Hlen Hall]. unfold get_mask. split; [by rewrite length_fmap|].
  apply Forall_fmap. eapply Forall_impl; [exact Hall|].
  intros row Hrow. simpl. by rewrite length_fmap.
Qed.

Lemma init_shaped g p : grid9 g → init g = Ret p → shaped p.
Proof.
  intros Hg Hp. pose proof Hp as (Hb & Hm & Hc & Hx)%init_Ret_inv.
  split_and!.
  - by rewrite Hb.
  - intros k. pose proof (makeDict_Ret_keys _ _ Hc k) as Hk.
    case_bool_decide as Hr; [|done]. destruct Hk as (v & Hv & Hd).
    destruct (get_column_cells g k Hg Hr) as (col & Hcol & Hlen & _).
    exists v. split; [done|]. congruence.
  - intros k. pose proof (makeDict_Ret_keys _ _ Hx k) as Hk.
    case_bool_decide as Hr; [|done]. destruct Hk as (v & Hv & Hd).
    destruct (get_box_cells g k Hg Hr) as (bx & Hbx & Hlen & _).
    exists v. split; [done|]. congruence.
  - rewrite Hm. by apply get_mask_mask9.
Qed.

(** X3. A board built from a 9x9 grid of digits stays well formed for
    ever: after any sequence of calls to [update], with any arguments and
    any outcomes, the grid is 9x9, the column and box dictionaries have the
    keys [0..8] and lists of nine cells, the mask is 9x9 and is the mask
    of the initial grid, and every cell is in [0,9]. *)
Theorem run_keeps_sound (g : list (list Z)) (p0 : Puzzle) (calls : list (Z * Z * Z)) :
  grid9 g → digits g → init g = Ret p0 →
  sound (run calls p0).2 ∧ mask (run calls p0).2 = get_mask g.
Proof.
  intros Hg Hd Hp. split.
  - apply run_sound. split; [by eapply init_shaped|].
    apply init_Ret_inv in Hp as (-> & _). done.
  - rewrite run_keeps_mask. by apply init_Ret_inv in Hp as (_ & -> & _).
Qed.

Lemma digits_sample : digits sample_grid.
Proof. repeat constructor; lia. Qed.

Lemma init_spec_witness : ∃ p, init sample_grid = Ret p.
Proof.
  apply (proj2 (proj1 (init_spec sample_grid))).
  apply grid9_rows_reach, grid9_sample.
Defined.

Lemma run_keeps_sound_witness :
  sound (run [(0, 2, 4); (0, -1, 3); (12, 0, 1); (1, 1, 5)] (loaded sample_grid)).2.
Proof.
  exact (proj1 (run_keeps_sound sample_grid _ _ grid9_sample digits_sample loaded_sample)).
Defined.

(** ** Every outcome of [update] on a well-formed board *)

Lemma index_neg len i :
  - Z.of_nat len ≤ i < 0 → Py.index len i = Some (Z.to_nat (Z.of_nat len + i)).
Proof.
  intros Hi. unfold Py.index. rewrite bool_decide_false by lia.
  by rewrite bool_decide_true by lia.
Qed.

Lemma index_out len i : ¬ (- Z.of_nat len ≤ i < Z.of_nat len) → Py.index len i = None.
Proof.
  intros Hi. unfold Py.index. rewrite bool_decide_false by lia.
  by rewrite bool_decide_false by lia.
Qed.

Lemma getitem_out {A} (l : list A) i :
  ¬ (- Z.of_nat (length l) ≤ i < Z.of_nat (length l)) → Py.getitem l i = Raise IndexError.
Proof. intros Hi. unfold Py.getitem. by rewrite index_out. Qed.

Lemma getitem_neg {A} (l : list A) i x :
  - Z.of_nat (length l) ≤ i < 0 →
  l !! Z.to_nat (Z.of_nat (length l) + i) = Some x → Py.getitem l i = Ret x.
Proof. intros Hi Hx. unfold Py.getitem. by rewrite index_neg, Hx. Qed.

Lemma setitem_neg {A} (l : list A) i x :
  - Z.of_nat (length l) ≤ i < 0 →
  Py.setitem l i x = Ret (<[Z.to_nat (Z.of_nat (length l) + i) := x]> l).
Proof. intros Hi. unfold Py.setitem. by rewrite index_neg. Qed.

Lemma shaped_at_cell p r c :
  shaped p → 0 ≤ r ≤ 8 → 0 ≤ c ≤ 8 →
  ∃ mrow m brow col bx prev,
    mask p !! Z.to_nat r = Some mrow ∧ mrow !! Z.to_nat c = Some m ∧
    at_cell r c p brow col bx prev ∧
    length brow = 9%nat ∧ length col = 9%nat ∧ length bx = 9%nat.
Proof.
  intros (Hg & Hc & Hb & [Hml Hm]) Hr Hcc.
  destruct (box_of_cell r c Hr Hcc) as (Hbi & Hoff & _).
  destruct (lookup_lt_is_Some_2 (mask p) (Z.to_nat r)) as [mrow Hmrow]; [lia|].
  pose proof (Forall_lookup_1 _ _ _ _ Hm Hmrow) as Hmlen. simpl in Hmlen.
  destruct (lookup_lt_is_Some_2 mrow (Z.to_nat c)) as [m Hmc]; [lia|].
  destruct (lookup_lt_is_Some_2 (board p) (Z.to_nat r)) as [brow Hrow]; [destruct Hg; lia|].
  pose proof (Forall_lookup_1 _ _ _ _ (proj2 Hg) Hrow) as Hlen. simpl in Hlen.
  destruct (lookup_lt_is_Some_2 brow (Z.to_nat c)) as [prev Hprev]; [lia|].
  specialize (Hc c). rewrite bool_decide_true in Hc by done. destruct Hc as (col & Hcol & Hcl).
  specialize (Hb (get_boxIndex r c)). rewrite bool_decide_true in Hb by done.
  destruct Hb as (bx & Hbx & Hbl).
  exists mrow, m, brow, col, bx, prev. split_and!; try done.
  constructor; try done; lia.
Qed.

(** The rejected call on any board: the grid gets [prev] back; the column
    list gets it at position [r]; the box dictionary gets it at key
    [box_offset r c], position [get_boxIndex r c]. *)
Lemma update_conflict_any r c val brow col bx prev bx2 p :
  0 ≤ r ≤ 8 → 0 ≤ c ≤ 8 → 0 ≤ val ≤ 9 →
  editable r c p → at_cell r c p brow col bx prev →
  is_valid r c (staged r c val brow col bx p) = Ret false →
  boxes (staged r c val brow col bx p) !! box_offset r c = Some bx2 →
  (Z.to_nat (get_boxIndex r c) < length bx2)%nat →
  update r c val p =
    (Raise ConflictValue,
     mkPuzzle (board p)
       (<[c := <[Z.to_nat r := prev]> col]> (columns p))
       (<[box_offset r c := <[Z.to_nat (get_boxIndex r c) := prev]> bx2]>
          (boxes (staged r c val brow col bx p)))
       (mask p)).
Proof.
  intros Hr Hc Hval (mrow & Hmrow & Hm) Hat Hok Hbx2 Hlen2.
  pose proof Hat as [Hrow Hprev Hcol Hcl Hbx Hbl].
  assert (Z.to_nat r < length (board p))%nat as Hrl by (by eapply lookup_lt_Some).
  assert (Z.to_nat c < length brow)%nat as Hcl' by (by eapply lookup_lt_Some).
  unfold update. rewrite bool_decide_true by (by apply legal_value). cbn [negb].
  erewrite bind_Ret; [|unfold read; f_equal; apply getitem2_Ret; [lia..|eauto]].
  rewrite bool_decide_false by done. cbv beta iota.
  erewrite bind_Ret; [|unfold read; f_equal; apply getitem2_Ret; [lia..|eauto]].
  erewrite bind_Ret; [|apply write_Ret, rows_setitem_Ret; [lia..|]; eexists; split_and!; [done|done|done]].
  erewrite bind_Ret; [|apply write_Ret, columns_setitem_Ret; [lia|]; eexists; split_and!; [done..|reflexivity]].
  erewrite bind_Ret; [|apply write_Ret, boxes_setitem_Ret; [apply box_offset_nonneg|]; eexists; split_and!; [done..|reflexivity]].
  erewrite bind_Ret; [|unfold read; f_equal; exact Hok].
  cbv beta iota.
  erewrite bind_Ret; [|apply write_Ret, rows_setitem_Ret; [lia..|]; eexists; split_and!; [| |reflexivity]].
  2:{ simpl. by apply list_lookup_insert_eq. }
  2:{ by rewrite length_insert. }
  erewrite bind_Ret; [|apply write_Ret, columns_setitem_Ret; [lia|]; eexists; split_and!; [| |reflexivity]].
  2:{ simpl. apply lookup_insert_eq. }
  2:{ by rewrite length_insert. }
  erewrite bind_Ret; [|apply write_Ret, boxes_setitem_Ret; [unfold get_boxIndex; Z.div_mod_to_equations; lia|]; eexists; split_and!; [exact Hbx2|exact Hlen2|reflexivity]].
  unfold raise. f_equal. simpl. f_equal.
  - rewrite !list_insert_insert_eq, (list_insert_id brow) by done.
    by apply list_insert_id.
  - by rewrite insert_insert_eq, list_insert_insert_eq.
Qed.

Lemma update_invalid r c val p : ¬ (0 ≤ val ≤ 9) → update r c val p = (Raise InvalidValue, p).
Proof.
  intros Hval. unfold update. rewrite bool_decide_false; [done|]. by rewrite legal_value.
Qed.

(** The four ways a call with indices in [0,8] ends on a well-formed
    board, with the board it leaves. *)
Lemma update_cases p r c val :
  shaped p → 0 ≤ r ≤ 8 → 0 ≤ c ≤ 8 →
  ∃ mrow m brow col bx prev,
    mask p !! Z.to_nat r = Some mrow ∧ mrow !! Z.to_nat c = Some m ∧
    at_cell r c p brow col bx prev ∧
    ((¬ 0 ≤ val ≤ 9 ∧ update r c val p = (Raise InvalidValue, p)) ∨
     (0 ≤ val ≤ 9 ∧ m = false ∧ update r c val p = (Raise FixedValue, p)) ∨
     (0 ≤ val ≤ 9 ∧ m = true ∧
      units_ok (<[Z.to_nat c := val]> brow) (<[Z.to_nat r := val]> col)
               (<[Z.to_nat (box_offset r c) := val]> bx) = true ∧
      update r c val p = (Ret (), staged r c val brow col bx p)) ∨
     (0 ≤ val ≤ 9 ∧ m = true ∧
      units_ok (<[Z.to_nat c := val]> brow) (<[Z.to_nat r := val]> col)
               (<[Z.to_nat (box_offset r c) := val]> bx) = false ∧
      ∃ p', update r c val p = (Raise ConflictValue, p') ∧
            board p' = board p ∧ mask p' = mask p)).
Proof.
  intros Hp Hr Hc.
  destruct (shaped_at_cell p r c Hp Hr Hc)
    as (mrow & m & brow & col & bx & prev & Hmrow & Hm & Hat & Hl1 & Hl2 & Hl3).
  exists mrow, m, brow, col, bx, prev. split_and!; try done.
  destruct (decide (0 ≤ val ≤ 9)) as [Hval|Hval]; [|left; split; [done|by apply update_invalid]].
  right. destruct m.
  2:{ left. split; [exact Hval|]. split; [done|].
      apply update_fixed; [lia..|]. by exists mrow. }
  right.
  pose proof (staged_is_valid r c val brow col bx prev p Hr Hat) as Hv.
  assert (editable r c p) as He by (by exists mrow).
  destruct (units_ok _ _ _) eqn:Hok.
  - left. split; [exact Hval|]. do 2 (split; [done|]). by eapply update_success.
  - right. split; [exact Hval|]. do 2 (split; [done|]).
    destruct (box_of_cell r c Hr Hc) as (Hbi & Hoff & _).
    destruct Hp as (_ & _ & Hb & _). pose proof Hat as [_ _ _ _ Hbx _].
    pose proof (dict9_insert _ (get_boxIndex r c) (Z.to_nat (box_offset r c)) val bx Hb Hbx
                  (box_offset r c)) as Hbx2.
    rewrite bool_decide_true in Hbx2 by (pose proof (box_offset_nonneg r c); lia).
    destruct Hbx2 as (bx2 & Hbx2 & Hlen2).
    erewrite (update_conflict_any r c val brow col bx prev bx2 p); try done; [|lia].
    eexists. split; [reflexivity|]. split; reflexivity.
Qed.

(** X4. On a well-formed board a call with [r] and [c] in [0,8] never
    raises [IndexError] or [KeyError], and its outcome is decided by three
    tests in this order: the value is outside [0,9] ([InvalidValue]); the
    mask marks the cell as fixed ([FixedValue]); the row, column and box
    lists with [val] written at the cell show a repeated value
    ([ConflictValue]); otherwise the call returns. *)
Theorem update_outcome (p : Puzzle) (r c val : Z) :
  shaped p → 0 ≤ r ≤ 8 → 0 ≤ c ≤ 8 →
  ∃ mrow m brow col bx prev,
    mask p !! Z.to_nat r = Some mrow ∧ mrow !! Z.to_nat c = Some m ∧
    at_cell r c p brow col bx prev ∧
    (update r c val p).1 =
      (if negb (bool_decide (0 ≤ val ≤ 9)) then Raise InvalidValue
       else if negb m then Raise FixedValue
       else if units_ok (<[Z.to_nat c := val]> brow) (<[Z.to_nat r := val]> col)
                        (<[Z.to_nat (box_offset r c) := val]> bx)
            then Ret () else Raise ConflictValue) ∧
    (update r c val p).1 ≠ Raise IndexError ∧ (update r c val p).1 ≠ Raise KeyError.
Proof.
  intros Hp Hr Hc.
  destruct (update_cases p r c val Hp Hr Hc)
    as (mrow & m & brow & col & bx & prev & Hmrow & Hm & Hat & Hcases).
  exists mrow, m, brow, col, bx, prev. do 3 (split; [done|]).
  destruct Hcases as [[Hv ->]|[(Hv & -> & ->)|[(Hv & -> & -> & ->)|(Hv & -> & -> & p' & -> & _)]]];
    simpl; rewrite ?bool_decide_true, ?bool_decide_false by done; done.
Qed.

Lemma shaped_sample : shaped (loaded sample_grid).
Proof. exact (init_shaped sample_grid _ grid9_sample loaded_sample). Qed.

Lemma update_outcome_witness :
  (update 0 2 5 (loaded sample_grid)).1 ≠ Raise KeyError.
Proof.
  destruct (update_outcome (loaded sample_grid) 0 2 5 shaped_sample)
    as (? & ? & ? & ? & ? & ? & _ & _ & _ & _ & _ & H); [lia|lia|exact H].
Defined.

(** X5. On a well-formed board, a call with [r] and [c] in [0,8] that
    does not return leaves the grid and the mask as they were; a call that
    raises [InvalidValue] or [FixedValue] leaves the whole board as it
    was. *)
Theorem update_failure_keeps_grid (p p' : Puzzle) (r c val : Z) (e : exn) :
  shaped p → 0 ≤ r ≤ 8 → 0 ≤ c ≤ 8 →
  update r c val p = (Raise e, p') →
  board p' = board p ∧ mask p' = mask p ∧
  (e = InvalidValue ∨ e = FixedValue → p' = p).
Proof.
  intros Hp Hr Hc Hu.
  destruct (update_cases p r c val Hp Hr Hc)
    as (mrow & m & brow & col & bx & prev & Hmrow & Hm & Hat & Hcases).
  destruct Hcases as [[Hv H]|[(Hv & _ & H)|[(Hv & _ & _ & H)|(Hv & _ & _ & p1 & H & Hb & Hmk)]]];
    rewrite H in Hu; simplify_eq; try done.
  split_and!; try done. intros [|]; discriminate.
Qed.

Lemma update_failure_keeps_grid_witness :
  board (update 0 2 5 (loaded sample_grid)).2 = sample_grid.
Proof.
  refine (proj1 (update_failure_keeps_grid (loaded sample_grid) _ 0 2 5 ConflictValue
                   shaped_sample _ _ _)); [lia|lia|].
  vm_compute. reflexivity.
Defined.

(** ** Indices outside [0,8] *)

(** X6. A negative column index slips past the checks.  On a well-formed
    board, with [r] in [0,8], [c] in [-9,-1] and a value in [0,9], if the
    mask marks the cell [(r, 9+c)] as editable then [update(r, c, val)]
    writes [val] into the grid at [(r, 9+c)] through the row alias and then
    raises [KeyError] on the column dictionary: the grid keeps the value,
    unchecked, and the column and box views are not updated. *)
Theorem update_negative_column (p : Puzzle) (r c val : Z) (brow : list Z) :
  shaped p → 0 ≤ r ≤ 8 → -9 ≤ c ≤ -1 → 0 ≤ val ≤ 9 →
  editable r (9 + c) p →
  board p !! Z.to_nat r = Some brow →
  update r c val p =
    (Raise KeyError,
     mkPuzzle (<[Z.to_nat r := <[Z.to_nat (9 + c) := val]> brow]> (board p))
              (columns p) (boxes p) (mask p)).
Proof.
  intros (Hg & Hcs & Hbs & [Hml Hm]) Hr Hc Hval (mrow & Hmrow & Hmc) Hrow.
  pose proof (Forall_lookup_1 _ _ _ _ Hm Hmrow) as Hmlen. simpl in Hmlen.
  pose proof (Forall_lookup_1 _ _ _ _ (proj2 Hg) Hrow) as Hlen. simpl in Hlen.
  destruct (lookup_lt_is_Some_2 brow (Z.to_nat (9 + c))) as [prev Hprev]; [lia|].
  assert (Z.to_nat r < length (board p))%nat as Hrl by (by eapply lookup_lt_Some).
  unfold update. rewrite bool_decide_true by (by apply legal_value). cbn [negb].
  erewrite bind_Ret.
  2:{ unfold read. f_equal. rewrite getitem_nonneg, Hmrow by lia.
      cbn [mbind result_bind]. apply getitem_neg; rewrite Hmlen; [lia|done]. }
  rewrite bool_decide_false by done. cbv beta iota.
  erewrite bind_Ret.
  2:{ unfold read. f_equal. rewrite getitem_nonneg, Hrow by lia.
      cbn [mbind result_bind]. apply getitem_neg; rewrite Hlen; [lia|done]. }
  erewrite bind_Ret.
  2:{ apply write_Ret. unfold rows_setitem, board_setitem.
      rewrite bool_decide_true, getitem_nonneg, Hrow by lia.
      cbn [mbind result_bind]. rewrite setitem_neg, Hlen by (rewrite Hlen; lia).
      cbn [mbind result_bind]. rewrite setitem_nonneg, bool_decide_true by lia.
      reflexivity. }
  erewrite bind_Raise; [reflexivity|].
  unfold write, columns_setitem, Py.dict_get. simpl.
  specialize (Hcs c). rewrite bool_decide_false in Hcs by lia. by rewrite Hcs.
Qed.

Lemma update_negative_column_witness :
  cell (board (update 0 (-1) 5 (loaded sample_grid)).2) 0 8 = Some 5 ∧
  (update 0 (-1) 5 (loaded sample_grid)).1 = Raise KeyError.
Proof.
  rewrite (update_negative_column (loaded sample_grid) 0 (-1) 5 [5;3;0;0;7;0;0;0;0]
             shaped_sample); [split; reflexivity|lia|lia|lia| |reflexivity].
  eexists. split; reflexivity.
Defined.

Lemma getitem_wrap {A} (l : list A) i x :
  - Z.of_nat (length l) ≤ i < Z.of_nat (length l) →
  l !! Z.to_nat (if bool_decide (i < 0) then Z.of_nat (length l) + i else i) = Some x →
  Py.getitem l i = Ret x.
Proof.
  intros Hi. case_bool_decide; intros Hx.
  - apply getitem_neg; [lia|done].
  - by rewrite getitem_nonneg, Hx by lia.
Qed.

(** X7. A row index outside [0,8] never changes the board: on a
    well-formed board, whatever the column index and the value, the call
    raises and leaves the board as it was.  With a value in [0,9]: a row
    index outside [-9,8] raises [IndexError]; a column index outside
    [-9,8] raises [IndexError]; a row index in [-9,-1] with a column index
    in [-9,8] raises [FixedValue] if the mask marks the cell that the two
    indices designate (row [9+r]; column [c], or [9+c] when [c] is
    negative) as fixed, and [KeyError] otherwise. *)
Theorem update_row_out_of_range (p : Puzzle) (r c val : Z) :
  shaped p →
  (¬ (0 ≤ r ≤ 8) → ∃ e, update r c val p = (Raise e, p)) ∧
  (0 ≤ val ≤ 9 →
   (¬ (-9 ≤ r ≤ 8) → update r c val p = (Raise IndexError, p)) ∧
   (-9 ≤ r ≤ 8 → ¬ (-9 ≤ c ≤ 8) → update r c val p = (Raise IndexError, p)) ∧
   (-9 ≤ r ≤ -1 → -9 ≤ c ≤ 8 →
      let c' := if bool_decide (c < 0) then 9 + c else c in
      (fixed (9 + r) c' p ∧ update r c val p = (Raise FixedValue, p)) ∨
      (editable (9 + r) c' p ∧ update r c val p = (Raise KeyError, p)))).
Proof.
  intros (Hg & Hcs & Hbs & [Hml Hm]).
  assert (0 ≤ val ≤ 9 →
   (¬ (-9 ≤ r ≤ 8) → update r c val p = (Raise IndexError, p)) ∧
   (-9 ≤ r ≤ 8 → ¬ (-9 ≤ c ≤ 8) → update r c val p = (Raise IndexError, p)) ∧
   (-9 ≤ r ≤ -1 → -9 ≤ c ≤ 8 →
      let c' := if bool_decide (c < 0) then 9 + c else c in
      (fixed (9 + r) c' p ∧ update r c val p = (Raise FixedValue, p)) ∨
      (editable (9 + r) c' p ∧ update r c val p = (Raise KeyError, p)))) as Hcases.
  { intros Hval. split_and!.
    - intros Hr. unfold update. rewrite bool_decide_true by (by apply legal_value). cbn [negb].
      erewrite bind_Raise; [reflexivity|]. unfold read. f_equal.
      rewrite getitem_out by (rewrite Hml; lia). reflexivity.
    - intros Hr Hc. unfold update. rewrite bool_decide_true by (by apply legal_value). cbn [negb].
      erewrite bind_Raise; [reflexivity|]. unfold read. f_equal.
      destruct (Py.getitem (mask p) r) as [mrow|e] eqn:Hmrow.
      + apply getitem_Ret_any in Hmrow as (n & Hn).
        pose proof (Forall_lookup_1 _ _ _ _ Hm Hn) as Hmlen. simpl in Hmlen.
        cbn [mbind result_bind]. apply getitem_out. rewrite Hmlen. lia.
      + apply getitem_Raise in Hmrow as ->. reflexivity.
    - intros Hr Hc c'.
      assert (0 ≤ c' ≤ 8) as Hc' by (unfold c'; case_bool_decide; lia).
      destruct (lookup_lt_is_Some_2 (mask p) (Z.to_nat (9 + r))) as [mrow Hmrow]; [lia|].
      pose proof (Forall_lookup_1 _ _ _ _ Hm Hmrow) as Hmlen. simpl in Hmlen.
      destruct (lookup_lt_is_Some_2 mrow (Z.to_nat c')) as [m Hmc]; [lia|].
      destruct (lookup_lt_is_Some_2 (board p) (Z.to_nat (9 + r))) as [brow Hrow];
        [destruct Hg; lia|].
      pose proof (Forall_lookup_1 _ _ _ _ (proj2 Hg) Hrow) as Hlen. simpl in Hlen.
      destruct (lookup_lt_is_Some_2 brow (Z.to_nat c')) as [prev Hprev]; [lia|].
      assert (update r c val p =
              (if m then Raise KeyError else Raise FixedValue, p)) as Hu.
      { unfold update. rewrite bool_decide_true by (by apply legal_value). cbn [negb].
        erewrite bind_Ret.
        2:{ unfold read. f_equal. erewrite getitem_neg; [|rewrite Hml; lia|by rewrite Hml].
            cbn [mbind result_bind]. apply getitem_wrap; rewrite Hmlen; [lia|exact Hmc]. }
        destruct m; [rewrite bool_decide_false by done|by rewrite bool_decide_true].
        cbv beta iota.
        erewrite bind_Ret.
        2:{ unfold read. f_equal.
            erewrite getitem_neg; [|destruct Hg as [-> _]; lia|by destruct Hg as [-> _]].
            cbn [mbind result_bind]. apply getitem_wrap; rewrite Hlen; [lia|exact Hprev]. }
        erewrite bind_Raise; [reflexivity|].
        unfold write, rows_setitem. by rewrite bool_decide_false by lia. }
      destruct m; [right|left]; (split; [by exists mrow|done]). }
  split; [|done].
  intros Hr. destruct (decide (0 ≤ val ≤ 9)) as [Hval|Hval].
  - destruct (Hcases Hval) as (HA & HB & HC).
    destruct (decide (-9 ≤ r ≤ 8)) as [Hr9|Hr9]; [|by eexists; apply HA].
    destruct (decide (-9 ≤ c ≤ 8)) as [Hc9|Hc9]; [|by eexists; apply HB].
    destruct HC as [[_ H]|[_ H]]; [lia|done|by eexists..].
  - eexists. by apply update_invalid.
Qed.

Lemma update_row_out_of_range_witness :
  ∃ e, update (-9) (-7) 5 (loaded sample_grid) = (Raise e, loaded sample_grid).
Proof.
  apply (proj1 (update_row_out_of_range (loaded sample_grid) (-9) (-7) 5 shaped_sample)).
  lia.
Defined.

(** ** Boards whose views agree with a legal grid *)

Lemma synced_cells p r c :
  grid9 (board p) → synced p → 0 ≤ r ≤ 8 → 0 ≤ c ≤ 8 →
  ∃ brow col bx prev,
    at_cell r c p brow col bx prev ∧
    get_row (board p) r = Ret brow ∧ get_column (board p) c = Ret col ∧
    get_box (board p) (get_boxIndex r c) = Ret bx ∧
    col !! Z.to_nat r = Some prev ∧ bx !! Z.to_nat (box_offset r c) = Some prev.
Proof.
  intros Hg Hs Hr Hc.
  destruct (synced_at_cell p r c Hg Hs Hr Hc)
    as (brow & col & bx & prev & Hat & _ & _ & _ & Hrow & Hcol & Hbx).
  destruct (box_of_cell r c Hr Hc) as (Hb & Hoff & Hbr & Hbc).
  destruct (get_column_cells _ c Hg Hc) as (col' & Hcol' & _ & Hcc).
  destruct (get_box_cells _ _ Hg Hb) as (bx' & Hbx' & _ & Hbc').
  assert (col' = col) as -> by congruence. assert (bx' = bx) as -> by congruence.
  exists brow, col, bx, prev. split_and!; try done.
  - rewrite Hcc by lia. unfold cell. destruct Hat as [-> Hp _ _ _ _]. done.
  - rewrite Hbc', Hbr, Hbc by done. unfold cell. destruct Hat as [-> Hp _ _ _ _]. done.
Qed.

(** X8. On a board whose views agree with its 9x9 grid, the three
    dictionaries show the value of the grid at every cell:
    [rows[r][c]], [columns[c][r]] and
    [boxes[get_boxIndex(r,c)][c%3 + (r%3)*3]] all equal [board[r][c]]. *)
Theorem views_show_cell (p : Puzzle) (r c : Z) :
  grid9 (board p) → synced p → 0 ≤ r ≤ 8 → 0 ≤ c ≤ 8 →
  ∃ v, (brow ← Py.getitem (board p) r; Py.getitem brow c) = Ret v ∧
       (l ← rows_get p r; Py.getitem l c) = Ret v ∧
       (l ← Py.dict_get (columns p) c; Py.getitem l r) = Ret v ∧
       (l ← Py.dict_get (boxes p) (get_boxIndex r c);
        Py.getitem l (c `mod` 3 + r `mod` 3 * 3)) = Ret v.
Proof.
  intros Hg Hs Hr Hc.
  destruct (synced_cells p r c Hg Hs Hr Hc)
    as (brow & col & bx & prev & [Hrow Hprev Hcol _ Hbx _] & _ & _ & _ & Hcp & Hbp).
  exists prev. split_and!.
  - apply getitem2_Ret; [lia..|eauto].
  - unfold rows_get. rewrite bool_decide_true by done. apply getitem2_Ret; [lia..|eauto].
  - apply dict_get_Ret in Hcol. rewrite Hcol. cbn [mbind result_bind].
    by apply getitem_Ret; [lia|].
  - apply dict_get_Ret in Hbx. rewrite Hbx. cbn [mbind result_bind].
    apply getitem_Ret; [apply box_offset_nonneg|done].
Qed.

Lemma synced_sample : synced (loaded sample_grid).
Proof. exact (proj2 (synced_init sample_grid _ loaded_sample)). Qed.

Lemma views_show_cell_witness :
  ∃ v, (brow ← Py.getitem (board (loaded sample_grid)) 4; Py.getitem brow 5) = Ret v ∧
       (l ← rows_get (loaded sample_grid) 4; Py.getitem l 5) = Ret v ∧
       (l ← Py.dict_get (columns (loaded sample_grid)) 5; Py.getitem l 4) = Ret v ∧
       (l ← Py.dict_get (boxes (loaded sample_grid)) (get_boxIndex 4 5);
        Py.getitem l (5 `mod` 3 + 4 `mod` 3 * 3)) = Ret v.
Proof.
  apply (views_show_cell (loaded sample_grid) 4 5);
    [exact grid9_sample|exact synced_sample|lia|lia].
Defined.

(** The accepted call keeps the shape and the agreement of the views. *)
Lemma staged_shaped p r c val brow col bx prev :
  shaped p → at_cell r c p brow col bx prev → shaped (staged r c val brow col bx p).
Proof.
  intros (Hg & Hc & Hb & Hm) [Hrow _ Hcol _ Hbx _]. split_and!; simpl; try done.
  - by apply grid9_insert.
  - by apply dict9_insert.
  - by apply dict9_insert.
Qed.

Lemma staged_synced p r c val brow col bx prev :
  grid9 (board p) → synced p → 0 ≤ r ≤ 8 → 0 ≤ c ≤ 8 →
  at_cell r c p brow col bx prev → synced (staged r c val brow col bx p).
Proof.
  intros Hg Hs Hr Hc [Hrow Hprev Hcol Hcl Hbx Hbl].
  intros i Hi. destruct (Hs i Hi) as (_ & Hsc & Hsb). split_and!.
  - unfold rows_get, get_row. by rewrite bool_decide_true.
  - simpl. rewrite get_column_insert, dict_get_insert, <- Hsc by done.
    case_decide as Hic; [subst i|by rewrite result_fmap_id].
    apply dict_get_Ret in Hcol. by rewrite Hcol.
  - simpl. rewrite get_box_insert, dict_get_insert, <- Hsb by done.
    case_decide as Hib; [subst i|by rewrite result_fmap_id].
    apply dict_get_Ret in Hbx. by rewrite Hbx.
Qed.

Lemma staged_legal p r c val brow col bx prev :
  grid9 (board p) → synced p → legal (board p) → 0 ≤ r ≤ 8 → 0 ≤ c ≤ 8 →
  at_cell r c p brow col bx prev →
  units_ok (<[Z.to_nat c := val]> brow) (<[Z.to_nat r := val]> col)
           (<[Z.to_nat (box_offset r c) := val]> bx) = true →
  legal (board (staged r c val brow col bx p)).
Proof.
  intros Hg Hs Hl Hr Hc Hat (Hnr & Hnc & Hnb)%units_ok_true.
  pose proof Hat as [Hrow Hprev Hcol Hcl Hbx Hbl].
  destruct (Hs c Hc) as (_ & Hsc & _).
  destruct (box_of_cell r c Hr Hc) as (Hb & _).
  destruct (Hs _ Hb) as (_ & _ & Hsb).
  apply dict_get_Ret in Hcol, Hbx. rewrite Hcol in Hsc. rewrite Hbx in Hsb.
  unfold legal. rewrite Forall_forall. intros i Hi%elem_of_range9.
  destruct (legal_units _ i Hl Hi) as (Hlr & Hlc & Hlb). simpl. split_and!.
  - unfold get_row in *. rewrite getitem_nonneg in * by lia.
    destruct (decide (Z.to_nat i = Z.to_nat r)) as [->|Hne].
    + rewrite list_lookup_insert_eq by (by eapply lookup_lt_Some). done.
    + by rewrite list_lookup_insert_ne.
  - rewrite get_column_insert by done.
    case_decide as Hic; [subst i; by rewrite <- Hsc|by rewrite result_fmap_id].
  - rewrite get_box_insert by done.
    case_decide as Hib; [subst i; by rewrite <- Hsb|by rewrite result_fmap_id].
Qed.

(** X9. The invariant of the board, along any history without a
    conflict: starting from a well-formed board whose views agree with a
    legal grid, after any sequence of calls with [r] and [c] in [0,8] none
    of which raised [ConflictValue], the board is well formed, its views
    agree with the grid, and the grid is legal. *)
Theorem run_without_conflict (calls : list (Z * Z * Z)) (p : Puzzle) :
  shaped p → synced p → legal (board p) →
  Forall (λ '(r, c, _), 0 ≤ r ≤ 8 ∧ 0 ≤ c ≤ 8) calls →
  Forall (λ o, o ≠ Raise ConflictValue) (run calls p).1 →
  shaped (run calls p).2 ∧ synced (run calls p).2 ∧ legal (board (run calls p).2).
Proof.
  revert p. induction calls as [|[[r c] val] calls IH]; intros p Hp Hs Hl Hin Hout; [done|].
  apply Forall_cons in Hin as [[Hr Hc] Hin]. simpl in *.
  destruct (update_cases p r c val Hp Hr Hc)
    as (mrow & m & brow & col & bx & prev & Hmrow & Hm & Hat & Hcases).
  destruct (update r c val p) as [o p1] eqn:Hu.
  specialize (IH p1). destruct (run calls p1) as [os p2]. simpl in *.
  apply Forall_cons in Hout as [Ho Hout].
  apply IH; try done;
    destruct Hcases as [[Hv H]|[(Hv & _ & H)|[(Hv & _ & Hok & H)|(Hv & _ & _ & p' & H & _)]]];
    simplify_eq; try done.
  - by eapply staged_shaped.
  - eapply staged_synced; try done. by destruct Hp.
  - eapply staged_legal; try done. by destruct Hp.
Qed.

Lemma run_without_conflict_witness :
  legal (board (run [(0, 2, 4); (0, 0, 1); (4, 4, 12); (4, 4, 5)] (loaded sample_grid)).2).
Proof.
  refine (proj2 (proj2 (run_without_conflict [(0, 2, 4); (0, 0, 1); (4, 4, 12); (4, 4, 5)]
                          (loaded sample_grid) shaped_sample synced_sample legal_sample _ _))).
  - repeat constructor; lia.
  - vm_compute. repeat constructor; discriminate.
Defined.

(** ** When a value is accepted *)

Lemma elem_of_nonzero (v : Z) (l : list Z) : v ∈ nonzero l ↔ v ≠ 0 ∧ v ∈ l.
Proof. unfold nonzero. by rewrite list_elem_of_filter. Qed.

Lemma nonzero_cons_zero (l : list Z) : nonzero (0 :: l) = nonzero l.
Proof. unfold nonzero. by rewrite filter_cons_False by (intros ?; done). Qed.

Lemma nonzero_cons (a : Z) (l : list Z) : a ≠ 0 → nonzero (a :: l) = a :: nonzero l.
Proof. intros Ha. unfold nonzero. by rewrite filter_cons_True. Qed.

(** Writing a value other than zero at one position of a list without
    repeats gives a list without repeats exactly when no other position
    holds that value. *)
Lemma nonzero_insert_NoDup (l : list Z) (n : nat) (v : Z) :
  v ≠ 0 → (n < length l)%nat → NoDup (nonzero l) →
  NoDup (nonzero (<[n := v]> l)) ↔ ∀ m, m ≠ n → l !! m ≠ Some v.
Proof.
  intros Hv. revert n. induction l as [|a l IH]; intros n Hn Hnd; [simpl in Hn; lia|].
  assert (NoDup (nonzero l)) as Hnd'.
  { destruct (decide (a = 0)) as [->|Ha].
    - by rewrite nonzero_cons_zero in Hnd.
    - rewrite nonzero_cons in Hnd by done. by apply NoDup_cons in Hnd as [_ ?]. }
  destruct n as [|n]; simpl.
  - rewrite nonzero_cons by done. rewrite NoDup_cons, elem_of_nonzero. split.
    + intros [Hnin _] [|m] Hm; [done|]. simpl. intros Hl.
      apply Hnin. split; [done|]. by eapply list_elem_of_lookup_2.
    + intros Hall. split; [|done]. intros [_ (k & Hk)%list_elem_of_lookup_1].
      by apply (Hall (S k)).
  - simpl in Hn. specialize (IH n ltac:(lia) Hnd').
    destruct (decide (a = 0)) as [->|Ha].
    + rewrite nonzero_cons_zero, IH. split.
      * intros Hall [|m] Hm; simpl; [congruence|]. apply Hall. lia.
      * intros Hall m Hm. apply (Hall (S m)). lia.
    + rewrite nonzero_cons in Hnd by done. apply NoDup_cons in Hnd as [Hanin _].
      rewrite nonzero_cons, NoDup_cons, IH by done. split.
      * intros [Ha' Hall] [|m] Hm; simpl; [|apply Hall; lia].
        intros [= ->]. apply Ha'. apply elem_of_nonzero. split; [done|].
        apply list_elem_of_insert. lia.
      * intros Hall. split; [|intros m Hm; apply (Hall (S m)); lia].
        intros [_ (k & Hk)%list_elem_of_lookup_1]%elem_of_nonzero.
        apply list_lookup_insert_Some in Hk as [(-> & -> & _)|[_ Hk]].
        -- by apply (Hall 0%nat).
        -- apply Hanin, elem_of_nonzero. split; [done|]. by eapply list_elem_of_lookup_2.
Qed.

Lemma box_cell_bounds k m :
  0 ≤ k ≤ 8 → (m < 9)%nat → (box_row k m < 9)%nat ∧ (box_col k m < 9)%nat.
Proof.
  intros Hk Hm. enum9 k Hk.
  all: do 9 (destruct m as [|m]; [vm_compute; lia|]); lia.
Qed.

Lemma at_cell_inj r c p brow col bx prev brow' col' bx' prev' :
  at_cell r c p brow col bx prev → at_cell r c p brow' col' bx' prev' →
  brow' = brow ∧ col' = col ∧ bx' = bx ∧ prev' = prev.
Proof.
  intros [H1 H2 H3 _ H4 _] [H1' H2' H3' _ H4' _].
  assert (brow' = brow) as -> by congruence.
  split_and!; congruence.
Qed.

(** The three lists accept [val] at the cell exactly when no peer of the
    cell holds it. *)
Lemma units_accept_iff p r c val brow col bx prev :
  grid9 (board p) → legal (board p) → 0 ≤ r ≤ 8 → 0 ≤ c ≤ 8 → val ≠ 0 →
  at_cell r c p brow col bx prev →
  get_row (board p) r = Ret brow → get_column (board p) c = Ret col →
  get_box (board p) (get_boxIndex r c) = Ret bx →
  units_ok (<[Z.to_nat c := val]> brow) (<[Z.to_nat r := val]> col)
           (<[Z.to_nat (box_offset r c) := val]> bx) = true ↔
  ∀ i j, 0 ≤ i ≤ 8 → 0 ≤ j ≤ 8 → peer r c i j →
         cell (board p) (Z.to_nat i) (Z.to_nat j) ≠ Some val.
Proof.
  intros Hg Hl Hr Hc Hv Hat Hrow Hcol Hbx.
  destruct (box_of_cell r c Hr Hc) as (Hb & Hoff & Hbr & Hbc).
  destruct (legal_units _ r Hl Hr) as (Hlr & _).
  destruct (legal_units _ c Hl Hc) as (_ & Hlc & _).
  destruct (legal_units _ _ Hl Hb) as (_ & _ & Hlb).
  rewrite Hrow in Hlr. rewrite Hcol in Hlc. rewrite Hbx in Hlb. simpl in *.
  destruct (get_column_cells _ c Hg Hc) as (col' & Hcol' & Hcl & Hcc).
  destruct (get_box_cells _ _ Hg Hb) as (bx' & Hbx' & Hbl & Hbc').
  assert (col' = col) as -> by congruence. assert (bx' = bx) as -> by congruence.
  pose proof Hat as [Hbrow Hprev _ _ _ _].
  assert (length brow = 9%nat) as Hrl by (by eapply (Forall_lookup_1 _ _ _ _ (proj2 Hg))).
  assert (∀ m, brow !! m = cell (board p) (Z.to_nat r) m) as Hrc.
  { intros m. unfold cell. by rewrite Hbrow. }
  rewrite units_ok_true.
  rewrite !nonzero_insert_NoDup by (done || lia).
  split.
  - intros (HR & HC & HB) i j Hi Hj [Hne [->| [->|Hsame]]].
    + rewrite <- Hrc. apply HR. intros Heq. apply Hne. f_equal. lia.
    + rewrite <- Hcc by lia. apply HC. intros Heq. apply Hne. f_equal. lia.
    + destruct (box_of_cell i j Hi Hj) as (_ & Hoff' & Hbr' & Hbc'').
      rewrite Hsame in Hbr', Hbc''. rewrite <- Hbr', <- Hbc'', <- Hbc' by done.
      apply HB. intros Heq. apply Hne. rewrite Heq, Hbr, Hbc in *. f_equal; lia.
  - intros Hpeers. split_and!.
    + intros m Hm. rewrite Hrc. destruct (decide (m < 9)%nat) as [Hm9|Hm9].
      * replace m with (Z.to_nat (Z.of_nat m)) by lia.
        apply Hpeers; [done|lia|]. split; [intros [= ?]; lia|by left].
      * rewrite <- Hrc, lookup_ge_None_2 by lia. done.
    + intros m Hm. destruct (decide (m < 9)%nat) as [Hm9|Hm9].
      * rewrite Hcc by done. replace m with (Z.to_nat (Z.of_nat m)) at 1 by lia.
        apply Hpeers; [lia|done|]. split; [intros [= ?]; lia|by right; left].
      * rewrite lookup_ge_None_2 by lia. done.
    + intros m Hm. destruct (decide (m < 9)%nat) as [Hm9|Hm9].
      * rewrite Hbc' by done.
        destruct (box_cell_bounds _ m Hb Hm9) as [Hi Hj].
        set (i := box_row (get_boxIndex r c) m) in *.
        set (j := box_col (get_boxIndex r c) m) in *.
        destruct (cell_of_box (Z.of_nat i) (Z.of_nat j) (get_boxIndex r c) m)
          as [Hsame Hpos]; [lia|lia|done|done|subst i; lia|subst j; lia|].
        replace i with (Z.to_nat (Z.of_nat i)) by lia.
        replace j with (Z.to_nat (Z.of_nat j)) by lia.
        apply Hpeers; [lia|lia|]. split; [|by right; right].
        intros [= Hi' Hj']. rewrite Hi', Hj' in Hpos. lia.
      * rewrite lookup_ge_None_2 by lia. done.
Qed.

(** X10. On a well-formed board whose views agree with a legal grid, a
    value in [1,9] is accepted at an editable cell exactly when no other
    cell of its row, of its column or of its box holds that value;
    otherwise the call raises [ConflictValue]. *)
Theorem update_accepts_iff (p : Puzzle) (r c val : Z) :
  shaped p → synced p → legal (board p) →
  0 ≤ r ≤ 8 → 0 ≤ c ≤ 8 → 1 ≤ val ≤ 9 → editable r c p →
  ((update r c val p).1 = Ret () ↔
   ∀ i j, 0 ≤ i ≤ 8 → 0 ≤ j ≤ 8 → peer r c i j →
          cell (board p) (Z.to_nat i) (Z.to_nat j) ≠ Some val) ∧
  ((update r c val p).1 = Ret () ∨ (update r c val p).1 = Raise ConflictValue).
Proof.
  intros Hp Hs Hl Hr Hc Hval (mrow & Hmrow & Hm).
  pose proof Hp as (Hg & _).
  destruct (synced_cells p r c Hg Hs Hr Hc)
    as (brow & col & bx & prev & Hat & Hrow & Hcol & Hbx & _).
  rewrite <- (units_accept_iff p r c val brow col bx prev) by (done || lia).
  destruct (update_cases p r c val Hp Hr Hc)
    as (mrow' & m & brow' & col' & bx' & prev' & Hmrow' & Hm' & Hat' & Hcases).
  destruct (at_cell_inj _ _ _ _ _ _ _ _ _ _ _ Hat Hat') as (-> & -> & -> & ->).
  assert (m = true) as -> by congruence.
  destruct Hcases as [[Hv _]|[(_ & ? & _)|[(_ & _ & Hok & ->)|(_ & _ & Hok & p' & -> & _)]]];
    [lia|done|..]; rewrite Hok; simpl; split; try (by left); try (by right);
    split; congruence.
Qed.

Lemma update_accepts_iff_witness :
  (update 0 2 4 (loaded sample_grid)).1 = Ret () ↔
  ∀ i j, 0 ≤ i ≤ 8 → 0 ≤ j ≤ 8 → peer 0 2 i j →
         cell (board (loaded sample_grid)) (Z.to_nat i) (Z.to_nat j) ≠ Some 4.
Proof.
  refine (proj1 (update_accepts_iff (loaded sample_grid) 0 2 4
                   shaped_sample synced_sample legal_sample _ _ _ _)); [lia|lia|lia|].
  eexists. split; reflexivity.
Defined.

(** X11. Undo.  On a board whose views agree with a legal 9x9 grid, if
    [update(r, c, val)] succeeds on a cell that held [prev], a value in
    [0,9], then [update(r, c, prev)] made next succeeds and gives back the
    board as it was before the first call: grid, rows, columns, boxes and
    mask. *)
Theorem update_undo (p p' : Puzzle) (r c val prev : Z) :
  grid9 (board p) → synced p → legal (board p) →
  0 ≤ r ≤ 8 → 0 ≤ c ≤ 8 → 0 ≤ prev ≤ 9 →
  cell (board p) (Z.to_nat r) (Z.to_nat c) = Some prev →
  update r c val p = (Ret (), p') →
  update r c prev p' = (Ret (), p).
Proof.
  intros Hg Hs Hl Hr Hc Hprev Hcell Hu.
  apply update_Ret_inv in Hu as (Hval & (mrow & Hmrow & Hm) & brow & col & bx & prev' & Hat & -> & _);
    [|done..].
  destruct (synced_cells p r c Hg Hs Hr Hc)
    as (brow' & col' & bx' & prev0 & Hat' & Hrow & Hcol & Hbx & Hcp & Hbp).
  destruct (at_cell_inj _ _ _ _ _ _ _ _ _ _ _ Hat Hat') as (-> & -> & -> & ->).
  pose proof Hat as [Hbrow Hbprev Hpcol Hcl Hpbx Hbl].
  assert (prev' = prev) as -> by (unfold cell in Hcell; rewrite Hbrow in Hcell; simpl in Hcell; congruence).
  destruct (box_of_cell r c Hr Hc) as (Hb & _).
  destruct (legal_units _ r Hl Hr) as (Hlr & _).
  destruct (legal_units _ c Hl Hc) as (_ & Hlc & _).
  destruct (legal_units _ _ Hl Hb) as (_ & _ & Hlb).
  rewrite Hrow in Hlr. rewrite Hcol in Hlc. rewrite Hbx in Hlb. simpl in *.
  set (p1 := staged r c val brow col bx p).
  assert (staged r c prev (<[Z.to_nat c := val]> brow) (<[Z.to_nat r := val]> col)
            (<[Z.to_nat (box_offset r c) := val]> bx) p1 = p) as Hback.
  { unfold staged, p1. destruct p as [bd cs bs mk]. simpl in *. f_equal.
    - rewrite !list_insert_insert_eq, (list_insert_id brow) by done.
      by apply list_insert_id.
    - rewrite insert_insert_eq, list_insert_insert_eq, (list_insert_id col) by done.
      by apply insert_id.
    - rewrite insert_insert_eq, list_insert_insert_eq, (list_insert_id bx) by done.
      by apply insert_id. }
  rewrite <- Hback at 1.
  eapply update_success; [done|done|done| | |].
  - by exists mrow.
  - constructor; simpl; rewrite ?length_insert; try done.
    + apply list_lookup_insert_eq. by eapply lookup_lt_Some.
    + apply list_lookup_insert_eq. by eapply lookup_lt_Some.
    + apply lookup_insert_eq.
    + apply lookup_insert_eq.
  - rewrite Hback. rewrite (is_valid_views r c p brow col bx) by done.
    f_equal. apply units_ok_true. done.
Qed.

Lemma update_undo_witness :
  update 0 2 0 (update 0 2 4 (loaded sample_grid)).2 = (Ret (), loaded sample_grid).
Proof.
  apply (update_undo (loaded sample_grid) _ 0 2 4 0);
    [exact grid9_sample|exact synced_sample|exact legal_sample|lia|lia|lia
    |reflexivity|reflexivity].
Defined.

(** ** The mask *)

Lemma update_shaped_contract r c val :
  hoare shaped (update r c val) (λ _, shaped) (λ _, shaped).
Proof.
  assert (∀ r c v, hoare shaped (write (board_setitem r c v)) (λ _, shaped) (λ _, shaped))
    as Hboard.
  { intros r' c' v. apply hoare_write; [|done].
    intros p p' (Hg & Hc & Hb & Hm) (n & k & row & Hrow & _ & ->)%board_setitem_Ret_any.
    split_and!; try done. by apply grid9_insert. }
  assert (∀ r c v, hoare shaped (write (rows_setitem r c v)) (λ _, shaped) (λ _, shaped))
    as Hrows.
  { intros r' c' v. apply hoare_write; [|done].
    intros p p' (Hg & Hc & Hb & Hm) (n & k & row & Hrow & _ & ->)%rows_setitem_Ret_any.
    split_and!; try done. by apply grid9_insert. }
  assert (∀ k i v, hoare shaped (write (columns_setitem k i v)) (λ _, shaped) (λ _, shaped))
    as Hcols.
  { intros k i v. apply hoare_write; [|done].
    intros p p' (Hg & Hc & Hb & Hm) (n & lst & Hk & _ & ->)%columns_setitem_Ret_any.
    split_and!; try done. by apply dict9_insert. }
  assert (∀ k i v, hoare shaped (write (boxes_setitem k i v)) (λ _, shaped) (λ _, shaped))
    as Hboxes.
  { intros k i v. apply hoare_write; [|done].
    intros p p' (Hg & Hc & Hb & Hm) (n & lst & Hk & _ & ->)%boxes_setitem_Ret_any.
    split_and!; try done. by apply dict9_insert. }
  unfold update. case_bool_decide as Hval; cbn [negb]; [|by apply hoare_raise].
  eapply hoare_bind with (R := λ _, shaped); [by apply hoare_read|]. intros m.
  case_bool_decide; [by apply hoare_raise|].
  eapply hoare_bind with (R := λ _, shaped); [by apply hoare_read|]. intros prev.
  eapply hoare_bind; [by apply Hrows|intros []].
  eapply hoare_bind; [by apply Hcols|intros []].
  eapply hoare_bind; [by apply Hboxes|intros []].
  eapply hoare_bind with (R := λ _, shaped); [by apply hoare_read|intros ok].
  destruct ok.
  - eapply hoare_bind; [by apply Hboard|intros []]. by apply hoare_ret.
  - eapply hoare_bind; [by apply Hrows|intros []].
    eapply hoare_bind; [by apply Hcols|intros []].
    eapply hoare_bind; [by apply Hboxes|intros []].
    by apply hoare_raise.
Qed.

Lemma run_shaped calls p : shaped p → shaped (run calls p).2.
Proof.
  revert p. induction calls as [|[[r c] val] calls IH]; intros p Hp; [done|].
  simpl. pose proof (update_shaped_contract r c val p Hp) as Hu.
  destruct (update r c val p) as [[[]|e] p1]; simpl in Hu;
    specialize (IH p1 Hu); by destruct (run calls p1) as [os p2].
Qed.

Lemma get_mask_cell g (i j : nat) (m : bool) :
  (get_mask g !! i ≫= (.!! j)) = Some m ↔ ∃ v, cell g i j = Some v ∧ m = bool_decide (v = 0).
Proof.
  unfold get_mask, cell. rewrite list_lookup_fmap.
  destruct (g !! i) as [row|]; simpl; [|naive_solver].
  rewrite list_lookup_fmap. destruct (row !! j) as [v|]; simpl; naive_solver.
Qed.

(** X12. The mask is that of the loaded grid for the life of the board:
    after any sequence of calls, a cell is editable exactly when the
    loaded grid held 0 there, and fixed exactly when it held another
    value, whatever the cell holds now.  On a board built from a 9x9
    grid, a call on a cell that was loaded empty never raises
    [FixedValue]. *)
Theorem mask_is_initial (g : list (list Z)) (p0 : Puzzle) (calls : list (Z * Z * Z))
    (r c val : Z) :
  init g = Ret p0 → 0 ≤ r ≤ 8 → 0 ≤ c ≤ 8 →
  (editable r c (run calls p0).2 ↔ cell g (Z.to_nat r) (Z.to_nat c) = Some 0) ∧
  (fixed r c (run calls p0).2 ↔
     ∃ v, cell g (Z.to_nat r) (Z.to_nat c) = Some v ∧ v ≠ 0) ∧
  (grid9 g → cell g (Z.to_nat r) (Z.to_nat c) = Some 0 →
     (update r c val (run calls p0).2).1 ≠ Raise FixedValue).
Proof.
  intros Hinit Hr Hc.
  assert (∀ m, (∃ mrow, mask (run calls p0).2 !! Z.to_nat r = Some mrow ∧
                        mrow !! Z.to_nat c = Some m) ↔
               ∃ v, cell g (Z.to_nat r) (Z.to_nat c) = Some v ∧ m = bool_decide (v = 0))
    as Hmask.
  { intros m. rewrite run_keeps_mask.
    pose proof Hinit as (_ & -> & _)%init_Ret_inv.
    rewrite <- get_mask_cell. destruct (get_mask g !! Z.to_nat r) as [mrow|]; simpl; naive_solver. }
  assert (editable r c (run calls p0).2 ↔ cell g (Z.to_nat r) (Z.to_nat c) = Some 0) as Hed.
  { unfold editable. rewrite Hmask. split.
    - intros (v & Hv & Hb). symmetry in Hb. apply bool_decide_eq_true in Hb. by subst.
    - intros Hv. exists 0. split; [done|]. by rewrite bool_decide_true. }
  split_and!; [done| |].
  - unfold fixed. rewrite Hmask. split.
    + intros (v & Hv & Hb). symmetry in Hb. apply bool_decide_eq_false in Hb. eauto.
    + intros (v & Hv & Hnz). exists v. split; [done|]. by rewrite bool_decide_false.
  - intros Hg Hz. apply Hed in Hz as (mrow & Hmrow & Hm).
    assert (shaped (run calls p0).2) as Hp by (by eapply run_shaped, init_shaped).
    destruct (update_cases _ r c val Hp Hr Hc)
      as (mrow' & m & brow & col & bx & prev & Hmrow' & Hm' & Hat & Hcases).
    assert (m = true) as -> by congruence.
    destruct Hcases as [[_ ->]|[(_ & ? & _)|[(_ & _ & _ & ->)|(_ & _ & _ & p' & -> & _)]]];
      done.
Qed.

Lemma mask_is_initial_witness :
  editable 0 2 (run [(0, 2, 4); (0, 2, 7)] (loaded sample_grid)).2.
Proof.
  apply (proj1 (mask_is_initial sample_grid (loaded sample_grid)
                  [(0, 2, 4); (0, 2, 7)] 0 2 0 loaded_sample ltac:(lia) ltac:(lia)));
    reflexivity.
Defined.

(** ** Box coordinates *)

(** X13. The pair (box index, position within the box) that [update]
    computes names each cell once: on [0..8] x [0..8] the map from
    [(r, c)] to [(get_boxIndex r c, c%3 + (r%3)*3)] is one-to-one and
    onto. *)
Theorem box_coordinates_bijective :
  (∀ r c, 0 ≤ r ≤ 8 → 0 ≤ c ≤ 8 →
     0 ≤ get_boxIndex r c ≤ 8 ∧ 0 ≤ c `mod` 3 + r `mod` 3 * 3 ≤ 8) ∧
  (∀ r c r' c', 0 ≤ r ≤ 8 → 0 ≤ c ≤ 8 → 0 ≤ r' ≤ 8 → 0 ≤ c' ≤ 8 →
     get_boxIndex r' c' = get_boxIndex r c →
     c' `mod` 3 + r' `mod` 3 * 3 = c `mod` 3 + r `mod` 3 * 3 →
     r' = r ∧ c' = c) ∧
  (∀ k j, 0 ≤ k ≤ 8 → 0 ≤ j ≤ 8 →
     ∃ r c, 0 ≤ r ≤ 8 ∧ 0 ≤ c ≤ 8 ∧ get_boxIndex r c = k ∧
            c `mod` 3 + r `mod` 3 * 3 = j).
Proof.
  split_and!.
  - intros r c Hr Hc. destruct (box_of_cell r c Hr Hc) as (Hb & Hoff & _).
    split; [done|]. pose proof (box_offset_nonneg r c). unfold box_offset in *. lia.
  - intros r c r' c' Hr Hc Hr' Hc' Hb Ho.
    destruct (box_of_cell r c Hr Hc) as (_ & _ & Hbr & Hbc).
    destruct (box_of_cell r' c' Hr' Hc') as (_ & _ & Hbr' & Hbc').
    unfold box_offset in *. rewrite Hb, Ho in *. lia.
  - intros k j Hk Hj.
    destruct (box_cell_bounds k (Z.to_nat j) Hk) as [Hi Hj']; [lia|].
    destruct (cell_of_box (Z.of_nat (box_row k (Z.to_nat j)))
                (Z.of_nat (box_col k (Z.to_nat j))) k (Z.to_nat j))
      as [Hsame Hpos]; [lia..|].
    eexists _, _. split_and!; [| | | |symmetry; exact Hsame|]; try lia.
    unfold box_offset in Hpos. pose proof (box_offset_nonneg
      (Z.of_nat (box_row k (Z.to_nat j))) (Z.of_nat (box_col k (Z.to_nat j)))) as Hnn.
    unfold box_offset in Hnn. lia.
Qed.

Lemma box_coordinates_bijective_witness :
  ∃ r c, 0 ≤ r ≤ 8 ∧ 0 ≤ c ≤ 8 ∧ get_boxIndex r c = 5 ∧ c `mod` 3 + r `mod` 3 * 3 = 7.
Proof.
  apply (proj2 (proj2 box_coordinates_bijective) 5 7); lia.
Defined.

(** ** The accessors *)

(** X14. On a 9x9 grid and for an index in [0,8], [get_row] returns the
    row of the grid, [get_column] the nine cells of the column from top to
    bottom, and [get_box] the nine cells of the 3x3 sub-grid row by row:
    position [i] of box [k] is the cell at row [k/3*3 + i/3] and column
    [k%3*3 + i%3]. *)
Theorem accessors_cells (g : list (list Z)) (k : Z) :
  grid9 g → 0 ≤ k ≤ 8 →
  ∃ row col bx,
    get_row g k = Ret row ∧ get_column g k = Ret col ∧ get_box g k = Ret bx ∧
    length row = 9%nat ∧ length col = 9%nat ∧ length bx = 9%nat ∧
    ∀ i, (i < 9)%nat →
      row !! i = cell g (Z.to_nat k) i ∧
      col !! i = cell g i (Z.to_nat k) ∧
      bx !! i = cell g (Z.to_nat (k / 3 * 3) + i / 3) (Z.to_nat (k `mod` 3 * 3) + i `mod` 3).
Proof.
  intros Hg Hk.
  destruct (lookup_lt_is_Some_2 g (Z.to_nat k)) as [row Hrow]; [destruct Hg; lia|].
  destruct (get_column_cells g k Hg Hk) as (col & Hcol & Hcl & Hcc).
  destruct (get_box_cells g k Hg Hk) as (bx & Hbx & Hbl & Hbc).
  exists row, col, bx. split_and!; try done.
  - by apply get_row_Ret; [lia|].
  - by eapply (Forall_lookup_1 _ _ _ _ (proj2 Hg)).
  - intros i Hi. split_and!; [|by apply Hcc|by apply Hbc].
    unfold cell. by rewrite Hrow.
Qed.

Lemma accessors_cells_witness :
  ∃ row col bx,
    get_row sample_grid 4 = Ret row ∧ get_column sample_grid 4 = Ret col ∧
    get_box sample_grid 4 = Ret bx ∧ bx !! 3%nat = Some 8.
Proof.
  destruct (accessors_cells sample_grid 4 grid9_sample ltac:(lia))
    as (row & col & bx & Hr & Hc & Hb & _ & _ & _ & Hcells).
  exists row, col, bx. split_and!; try done.
  by destruct (Hcells 3%nat ltac:(lia)) as (_ & _ & ->).
Defined.

(** X15. The accessors take Python indices.  On a 9x9 grid, an index in
    [-9,-1] names the same unit as that index plus 9 (so [get_box(-1)] is
    box 8), and any index outside [-9,8] raises [IndexError]. *)
Theorem accessors_index_range (g : list (list Z)) (k : Z) :
  grid9 g →
  (0 ≤ k ≤ 8 →
     get_row g (k - 9) = get_row g k ∧ get_column g (k - 9) = get_column g k ∧
     get_box g (k - 9) = get_box g k) ∧
  (¬ (-9 ≤ k ≤ 8) →
     get_row g k = Raise IndexError ∧ get_column g k = Raise IndexError ∧
     get_box g k = Raise IndexError).
Proof.
  intros Hg. split.
  - intros Hk. explode_grid g Hg. enum9 k Hk; split_and!; vm_compute; reflexivity.
  - intros Hk. pose proof Hg as [Hlen Hall]. split_and!.
    + apply getitem_out. lia.
    + destruct (lookup_lt_is_Some_2 g (Z.to_nat 0)) as [row Hrow]; [lia|].
      pose proof (Forall_lookup_1 _ _ _ _ Hall Hrow) as Hrl. simpl in Hrl.
      unfold get_column. change (Py.range 9) with [0; 1; 2; 3; 4; 5; 6; 7; 8].
      cbn [foldl mbind result_bind mret result_ret].
      rewrite (getitem_nonneg g 0), Hrow by lia.
      cbn [mbind result_bind mret result_ret].
      rewrite (getitem_out row k) by lia. reflexivity.
    + unfold get_box. change (Py.range 3) with [0; 1; 2].
      cbn [foldl mbind result_bind mret result_ret].
      rewrite (getitem_out g (k / 3 * 3 + 0)); [reflexivity|].
      rewrite Hlen. Z.div_mod_to_equations. lia.
Qed.

Lemma accessors_index_range_witness :
  get_box sample_grid (-1) = get_box sample_grid 8.
Proof.
  destruct (proj1 (accessors_index_range sample_grid 8 grid9_sample) ltac:(lia))
    as (_ & _ & H). exact H.
Defined.

(** ** A solved board *)

Lemma is_solved_true p :
  is_solved p = true ↔ ∀ i j v, cell (board p) i j = Some v → v ≠ 0.
Proof.
  unfold is_solved. rewrite forallb_forall. split.
  - intros H i j v Hc ->. unfold cell in Hc.
    destruct (board p !! i) as [row|] eqn:Hrow; [|done]. simpl in Hc.
    specialize (H row). rewrite <- list_elem_of_In in H.
    specialize (H (list_elem_of_lookup_2 _ _ _ Hrow)).
    apply negb_true_iff, bool_decide_eq_false in H.
    apply H. by eapply list_elem_of_lookup_2.
  - intros H row [i Hi]%list_elem_of_In%list_elem_of_lookup_1.
    apply negb_true_iff, bool_decide_eq_false.
    intros [j Hj]%list_elem_of_lookup_1.
    apply (H i j 0); [|done]. unfold cell. by rewrite Hi.
Qed.

Lemma nonzero_id (l : list Z) : (∀ v, v ∈ l → v ≠ 0) → nonzero l = l.
Proof.
  induction l as [|a l IH]; intros H; [done|].
  rewrite nonzero_cons by (apply H; left). f_equal. apply IH.
  intros v Hv. apply H. by right.
Qed.

Lemma unit_permutation (l : list Z) :
  length l = 9%nat → (∀ v, v ∈ l → 1 ≤ v ≤ 9) → NoDup (nonzero l) →
  l ≡ₚ [1; 2; 3; 4; 5; 6; 7; 8; 9].
Proof.
  intros Hlen Hdig Hnd. rewrite nonzero_id in Hnd by (intros v Hv%Hdig; lia).
  apply submseteq_length_Permutation; [|simpl; lia].
  apply NoDup_submseteq; [done|]. intros v Hv%Hdig.
  assert (v = 1 ∨ v = 2 ∨ v = 3 ∨ v = 4 ∨ v = 5 ∨ v = 6 ∨ v = 7 ∨ v = 8 ∨ v = 9)
    as Hcases by lia.
  set_solver.
Qed.

(** X16. What [is_solved] relies on.  If the grid is 9x9, holds only
    digits and is legal, and [is_solved] returns true, then the board is a
    solution: every row, every column and every box is a permutation of
    1..9. *)
Theorem solved_is_solution (p : Puzzle) (k : Z) :
  grid9 (board p) → digits (board p) → legal (board p) → is_solved p = true →
  0 ≤ k ≤ 8 →
  ∃ row col bx,
    get_row (board p) k = Ret row ∧ get_column (board p) k = Ret col ∧
    get_box (board p) k = Ret bx ∧
    row ≡ₚ [1; 2; 3; 4; 5; 6; 7; 8; 9] ∧ col ≡ₚ [1; 2; 3; 4; 5; 6; 7; 8; 9] ∧
    bx ≡ₚ [1; 2; 3; 4; 5; 6; 7; 8; 9].
Proof.
  intros Hg Hd Hl Hs Hk. rewrite is_solved_true in Hs.
  assert (∀ i j v, cell (board p) i j = Some v → 1 ≤ v ≤ 9) as Hcell.
  { intros i j v Hc. pose proof (Hs i j v Hc). unfold cell in Hc.
    destruct (board p !! i) as [row|] eqn:Hrow; [|done]. simpl in Hc.
    pose proof (digits_lookup _ _ _ _ _ Hd Hrow Hc). lia. }
  destruct (lookup_lt_is_Some_2 (board p) (Z.to_nat k)) as [row Hrow]; [destruct Hg; lia|].
  destruct (get_column_cells _ k Hg Hk) as (col & Hcol & Hcl & Hcc).
  destruct (get_box_cells _ k Hg Hk) as (bx & Hbx & Hbl & Hbc).
  assert (get_row (board p) k = Ret row) as Hgr by (by apply get_row_Ret; [lia|]).
  destruct (legal_units _ k Hl Hk) as (Hlr & Hlc & Hlb).
  rewrite Hgr in Hlr. rewrite Hcol in Hlc. rewrite Hbx in Hlb. simpl in *.
  exists row, col, bx. split_and!; try done; apply unit_permutation; try done.
  - by eapply (Forall_lookup_1 _ _ _ _ (proj2 Hg)).
  - intros v [j Hj]%list_elem_of_lookup_1. apply (Hcell (Z.to_nat k) j).
    unfold cell. by rewrite Hrow.
  - intros v [j Hj]%list_elem_of_lookup_1.
    assert (j < 9)%nat by (apply lookup_lt_Some in Hj; lia).
    eapply Hcell. by rewrite <- Hcc.
  - intros v [j Hj]%list_elem_of_lookup_1.
    assert (j < 9)%nat by (apply lookup_lt_Some in Hj; lia).
    eapply Hcell. by rewrite <- Hbc.
Qed.

(** ** Rendering *)

Lemma string_app_cons a (s1 s2 : string) : String a s1 +:+ s2 = String a (s1 +:+ s2).
Proof. reflexivity. Qed.

Lemma string_length_app (s1 s2 : string) :
  String.length (s1 +:+ s2) = (String.length s1 + String.length s2)%nat.
Proof.
  induction s1 as [|a s1 IH]; [done|].
  rewrite string_app_cons. simpl. by rewrite IH.
Qed.

Lemma string_app_assoc (s1 s2 s3 : string) : (s1 +:+ s2) +:+ s3 = s1 +:+ s2 +:+ s3.
Proof.
  induction s1 as [|a s1 IH]; [done|]. rewrite !string_app_cons. by f_equal.
Qed.

Lemma string_app_nil_r (s : string) : s +:+ "" = s.
Proof.
  induction s as [|a s IH]; [done|]. rewrite string_app_cons. by f_equal.
Qed.

Lemma str_join_cons (s : string) (l : list string) :
  String.concat "" (s :: l) = s +:+ String.concat "" l.
Proof. destruct l; simpl; [by rewrite string_app_nil_r|done]. Qed.

Lemma str_join_app (l1 l2 : list string) :
  String.concat "" (l1 ++ l2) = String.concat "" l1 +:+ String.concat "" l2.
Proof.
  induction l1 as [|s l1 IH]; [done|].
  rewrite <- app_comm_cons, !str_join_cons, IH. by rewrite string_app_assoc.
Qed.

Lemma range_S n : Py.range (S n) = Py.range n ++ [Z.of_nat n].
Proof. unfold Py.range. by rewrite seq_S, fmap_app. Qed.

Lemma str_cells_loop p r brow acc n :
  0 ≤ r → board p !! Z.to_nat r = Some brow → (n ≤ length brow)%nat →
  foldl (λ acc i, s ← acc; brow ← Py.getitem (board p) r; v ← Py.getitem brow i;
                  mret (s ++ [cell_text v]))
        (Ret acc) (Py.range n)
  = Ret (acc ++ (cell_text <$> take n brow)).
Proof.
  intros Hr Hrow. induction n as [|n IH]; intros Hn.
  - simpl. by rewrite app_nil_r.
  - rewrite (range_S n), foldl_app, IH by lia. cbn [foldl mbind result_bind].
    destruct (lookup_lt_is_Some_2 brow n) as [v Hv]; [lia|].
    rewrite getitem_nonneg, Hrow by lia. cbn [mbind result_bind].
    rewrite getitem_nonneg, Nat2Z.id, Hv by lia. cbn [mbind result_bind mret result_ret].
    by rewrite (take_S_r _ _ _ Hv), fmap_app, app_assoc.
Qed.

Lemma str_rows_loop p acc n :
  rows_reach (board p) 9 → (n ≤ 9)%nat →
  foldl (λ acc r,
      s ← acc;
      s ← foldl (λ acc i, s ← acc; brow ← Py.getitem (board p) r; v ← Py.getitem brow i;
                          mret (s ++ [cell_text v]))
          (Ret (s ++ ["|"])) (Py.range 9);
      mret (s ++ [rule_text]))
    (Ret acc) (Py.range n)
  = Ret (acc ++ mjoin ((λ brow, ["|"] ++ (cell_text <$> take 9 brow) ++ [rule_text])
                         <$> take n (board p))).
Proof.
  intros Hg. induction n as [|n IH]; intros Hn.
  - simpl. by rewrite app_nil_r.
  - rewrite (range_S n), foldl_app, IH by lia. cbn [foldl mbind result_bind].
    destruct (Hg n) as (brow & Hrow & Hlen); [lia|].
    rewrite (str_cells_loop p (Z.of_nat n) brow) by (rewrite ?Nat2Z.id; done || lia).
    cbn [mbind result_bind mret result_ret].
    rewrite (take_S_r _ _ _ Hrow), fmap_app, join_app. simpl.
    by rewrite app_nil_r, <- !app_assoc.
Qed.

Lemma pretty_digit (v : Z) : 0 ≤ v ≤ 9 → String.length (pretty v) = 1%nat.
Proof.
  intros Hv.
  assert (v = 0 ∨ v = 1 ∨ v = 2 ∨ v = 3 ∨ v = 4 ∨ v = 5 ∨ v = 6 ∨ v = 7 ∨ v = 8 ∨ v = 9)
    as [->|[->|[->|[->|[->|[->|[->|[->|[->| ->]]]]]]]]] by lia; reflexivity.
Qed.

Lemma join_cells_length (l : list Z) :
  Forall (λ v, 0 ≤ v ≤ 9) l →
  String.length (String.concat "" (cell_text <$> l)) = (4 * length l)%nat.
Proof.
  induction 1 as [|v l Hv _ IH]; [done|].
  rewrite fmap_cons, str_join_cons, string_length_app, IH. unfold cell_text.
  rewrite !string_length_app, pretty_digit by done. simpl. lia.
Qed.

Lemma join_rows_length (g : list (list Z)) :
  Forall (λ row, length row = 9%nat) g → digits g →
  String.length (String.concat "" ((λ brow, row_text brow +:+ rule_text) <$> g))
  = (76 * length g)%nat.
Proof.
  intros Hlen Hd. induction g as [|brow g IH]; [done|].
  apply Forall_cons in Hlen as [Hl Hlen]. apply Forall_cons in Hd as [Hb Hd].
  rewrite fmap_cons, str_join_cons, string_length_app, IH by done.
  unfold row_text. rewrite !string_length_app, join_cells_length, Hl by done.
  change (String.length rule_text) with 39%nat. simpl. lia.
Qed.

(** X17. [__str__] on a 9x9 grid returns, for each row in turn, the text
    of the row (["|"] and then [" v |"] for each cell) followed by a line
    feed, 37 underscores and a line feed.  When the cells are digits each
    row text is 37 characters wide, as wide as the rule under it, and the
    whole string has 684 characters. *)
Theorem str_layout (p : Puzzle) :
  grid9 (board p) →
  str p = Ret (String.concat "" ((λ brow, row_text brow +:+ rule_text) <$> board p)) ∧
  rule_text = newline +:+ str_repeat "_" 37 +:+ newline ∧
  String.length (str_repeat "_" 37) = 37%nat ∧
  (digits (board p) →
     Forall (λ brow, String.length (row_text brow) = 37%nat) (board p) ∧
     ∀ s, str p = Ret s → String.length s = 684%nat).
Proof.
  intros Hg.
  assert (str p = Ret (String.concat ""
            ((λ brow, row_text brow +:+ rule_text) <$> board p))) as Hstr.
  { unfold str. rewrite (str_rows_loop p [] 9) by (by apply grid9_rows_reach || lia).
    cbn [mbind result_bind mret result_ret]. f_equal.
    rewrite take_ge by (destruct Hg; lia). simpl.
    destruct Hg as [_ Hall]. clear -Hall.
    induction (board p) as [|brow g IH]; [done|].
    apply Forall_cons in Hall as [Hl Hall].
    rewrite !fmap_cons, str_join_cons. simpl mjoin. rewrite <- IH by done.
    rewrite take_ge by lia. unfold row_text.
    rewrite str_join_cons, !str_join_app.
    change (String.concat "" [rule_text]) with rule_text.
    by rewrite !string_app_assoc. }
  split_and!; [done|done|done|].
  intros Hd. split.
  - destruct Hg as [_ Hall]. rewrite Forall_forall in Hall. rewrite Forall_forall.
    intros brow Hin. unfold row_text.
    rewrite string_length_app, join_cells_length, (Hall _ Hin); [done|].
    unfold digits in Hd. rewrite Forall_forall in Hd. by apply Hd.
  - intros s Hs. rewrite Hstr in Hs. injection Hs as <-.
    rewrite join_rows_length by (done || apply Hg). by destruct Hg as [-> _].
Qed.

Lemma str_layout_witness :
  ∃ s, str (loaded sample_grid) = Ret s ∧ String.length s = 684%nat.
Proof.
  destruct (str_layout (loaded sample_grid) grid9_sample) as (Hs & _ & _ & Hlen).
  eexists. split; [exact Hs|]. exact (proj2 (Hlen digits_sample) _ Hs).
Defined.

Lemma grid9_solved : grid9 solved_grid.
Proof. split; [reflexivity|]. repeat constructor. Qed.

Lemma solved_is_solution_witness :
  ∃ row col bx,
    get_row solved_grid 4 = Ret row ∧ get_column solved_grid 4 = Ret col ∧
    get_box solved_grid 4 = Ret bx ∧
    row ≡ₚ [1; 2; 3; 4; 5; 6; 7; 8; 9] ∧ col ≡ₚ [1; 2; 3; 4; 5; 6; 7; 8; 9] ∧
    bx ≡ₚ [1; 2; 3; 4; 5; 6; 7; 8; 9].
Proof.
  apply (solved_is_solution (mkPuzzle solved_grid ∅ ∅ []) 4).
  - exact grid9_solved.
  - repeat constructor; lia.
  - apply (bool_decide_unpack _). vm_compute. exact I.
  - vm_compute. reflexivity.
  - lia.
Defined.

(** ** The rollback, cell by cell *)

(** X18. What a rejected call leaves behind.  On a well-formed board
    whose views agree with the grid, a call with [r] and [c] in [0,8] that
    raises [ConflictValue] leaves the grid, the columns and the mask as
    they were.  If the position of the cell within its box equals the box
    index, the boxes are as they were too and the board is unchanged.
    Otherwise the box dictionary is changed in two places: the slot of the
    cell keeps the rejected value, and the slot with the two indices
    exchanged receives the previous value of the cell. *)
Theorem rollback_effect (p p' : Puzzle) (r c val prev : Z) :
  shaped p → synced p → 0 ≤ r ≤ 8 → 0 ≤ c ≤ 8 →
  cell (board p) (Z.to_nat r) (Z.to_nat c) = Some prev →
  update r c val p = (Raise ConflictValue, p') →
  board p' = board p ∧ columns p' = columns p ∧ mask p' = mask p ∧
  (box_offset r c = get_boxIndex r c → p' = p) ∧
  (box_offset r c ≠ get_boxIndex r c →
     (boxes p' !! get_boxIndex r c ≫= (.!! Z.to_nat (box_offset r c))) = Some val ∧
     (boxes p' !! box_offset r c ≫= (.!! Z.to_nat (get_boxIndex r c))) = Some prev).
Proof.
  intros Hp Hs Hr Hc Hcell Hu. pose proof Hp as (Hg & _ & Hb & _).
  destruct (synced_cells p r c Hg Hs Hr Hc)
    as (brow & col & bx & prev' & Hat & _ & _ & _ & Hcp & Hbp).
  pose proof Hat as [Hbrow Hbprev Hpcol Hcl Hpbx Hbl].
  assert (prev' = prev) as ->
    by (unfold cell in Hcell; rewrite Hbrow in Hcell; simpl in Hcell; congruence).
  destruct (update_cases p r c val Hp Hr Hc)
    as (mrow & m & brow' & col' & bx' & prev' & Hmrow & Hm & Hat' & Hcases).
  destruct (at_cell_inj _ _ _ _ _ _ _ _ _ _ _ Hat Hat') as (-> & -> & -> & ->).
  destruct Hcases as [[_ H]|[(_ & _ & H)|[(_ & _ & _ & H)|(Hval & -> & Hok & _)]]];
    [rewrite H in Hu; discriminate..|].
  destruct (box_of_cell r c Hr Hc) as (Hbi & Hoff & _).
  pose proof (box_offset_nonneg r c) as Hnn.
  pose proof (dict9_insert _ (get_boxIndex r c) (Z.to_nat (box_offset r c)) val bx Hb Hpbx
                (box_offset r c)) as Hbx2.
  rewrite bool_decide_true in Hbx2 by lia. destruct Hbx2 as (bx2 & Hbx2 & Hlen2).
  assert (is_valid r c (staged r c val brow col bx p) = Ret false) as Hv
    by (by rewrite (staged_is_valid r c val brow col bx prev p Hr Hat), Hok).
  assert (editable r c p) as He by (by exists mrow).
  split_and!.
  - rewrite (update_conflict r c val brow col bx prev bx2 p) in Hu; try done; [|lia].
    by injection Hu as <-.
  - rewrite (update_conflict r c val brow col bx prev bx2 p) in Hu; try done; [|lia].
    by injection Hu as <-.
  - rewrite (update_conflict r c val brow col bx prev bx2 p) in Hu; try done; [|lia].
    by injection Hu as <-.
  - intros Hdiag.
    rewrite (update_conflict_diagonal r c val brow col bx prev p) in Hu by done.
    by injection Hu as <-.
  - intros Hne.
    rewrite (update_conflict r c val brow col bx prev bx2 p) in Hu; try done; [|lia].
    injection Hu as <-. simpl. split.
    + rewrite lookup_insert_ne, lookup_insert_eq by done. simpl.
      by apply list_lookup_insert_eq.
    + rewrite lookup_insert_eq. simpl. apply list_lookup_insert_eq. lia.
Qed.

Lemma rollback_effect_witness :
  let p' := (update 0 2 5 (loaded sample_grid)).2 in
  (boxes p' !! get_boxIndex 0 2 ≫= (.!! Z.to_nat (box_offset 0 2))) = Some 5.
Proof.
  refine (proj1 (proj2 (proj2 (proj2 (proj2
            (rollback_effect (loaded sample_grid) _ 0 2 5 0
               shaped_sample synced_sample _ _ _ _)))) _));
    [lia|lia|reflexivity|vm_compute; reflexivity|vm_compute; discriminate].
Defined.

(** ** Two calls on different cells *)

Lemma shaped_synced_ext p q :
  shaped p → shaped q → synced p → synced q →
  board p = board q → mask p = mask q → p = q.
Proof.
  intros (_ & Hpc & Hpb & _) (_ & Hqc & Hqb & _) Hsp Hsq Hb Hm.
  destruct p as [bd cs bs mk], q as [bd' cs' bs' mk']. simpl in *. subst bd' mk'.
  f_equal; apply map_eq; intros k.
  - specialize (Hpc k). specialize (Hqc k).
    destruct (bool_decide (0 ≤ k ≤ 8)) eqn:Hk; [|congruence].
    apply bool_decide_eq_true in Hk.
    destruct (Hsp k Hk) as (_ & H1 & _). destruct (Hsq k Hk) as (_ & H2 & _).
    simpl in *. rewrite <- H2 in H1. unfold Py.dict_get in H1.
    destruct Hpc as (l & Hl & _). destruct Hqc as (l' & Hl' & _).
    rewrite Hl, Hl' in H1 |- *. simpl in H1. congruence.
  - specialize (Hpb k). specialize (Hqb k).
    destruct (bool_decide (0 ≤ k ≤ 8)) eqn:Hk; [|congruence].
    apply bool_decide_eq_true in Hk.
    destruct (Hsp k Hk) as (_ & _ & H1). destruct (Hsq k Hk) as (_ & _ & H2).
    simpl in *. rewrite <- H2 in H1. unfold Py.dict_get in H1.
    destruct Hpb as (l & Hl & _). destruct Hqb as (l' & Hl' & _).
    rewrite Hl, Hl' in H1 |- *. simpl in H1. congruence.
Qed.

Lemma grid9_ext g1 g2 :
  grid9 g1 → grid9 g2 → (∀ i j, cell g1 i j = cell g2 i j) → g1 = g2.
Proof.
  intros [Hl1 Ha1] [Hl2 Ha2] Hcells. apply list_eq. intros i.
  destruct (g1 !! i) as [r1|] eqn:H1, (g2 !! i) as [r2|] eqn:H2.
  - f_equal. apply list_eq. intros j. specialize (Hcells i j).
    unfold cell in Hcells. by rewrite H1, H2 in Hcells.
  - apply lookup_lt_Some in H1. apply lookup_ge_None in H2. lia.
  - apply lookup_lt_Some in H2. apply lookup_ge_None in H1. lia.
  - done.
Qed.

(** X19. Calls on two different cells commute when both orders are
    accepted: on a well-formed board whose views agree with the grid, if
    [update(r1, c1, v1)] then [update(r2, c2, v2)] both succeed, and so do
    the same two calls in the other order, the two final boards are
    equal. *)
Theorem update_commute (p pa pab pb pba : Puzzle) (r1 c1 v1 r2 c2 v2 : Z) :
  shaped p → synced p →
  0 ≤ r1 ≤ 8 → 0 ≤ c1 ≤ 8 → 0 ≤ r2 ≤ 8 → 0 ≤ c2 ≤ 8 → (r1, c1) ≠ (r2, c2) →
  update r1 c1 v1 p = (Ret (), pa) → update r2 c2 v2 pa = (Ret (), pab) →
  update r2 c2 v2 p = (Ret (), pb) → update r1 c1 v1 pb = (Ret (), pba) →
  pab = pba.
Proof.
  intros Hp Hs Hr1 Hc1 Hr2 Hc2 Hne Ha Hab Hb Hba.
  assert (∀ q q' r c v, shaped q → synced q → 0 ≤ r ≤ 8 → 0 ≤ c ≤ 8 →
            update r c v q = (Ret (), q') →
            shaped q' ∧ synced q' ∧ mask q' = mask q ∧
            ∀ i j, cell (board q') i j =
                   if decide (i = Z.to_nat r ∧ j = Z.to_nat c) then Some v
                   else cell (board q) i j) as Hstep.
  { intros q q' r c v Hq Hsq Hr Hc Hu.
    apply update_Ret_inv in Hu as (_ & _ & brow & col & bx & prev & Hat & -> & _); [|done..].
    split_and!; [by eapply staged_shaped|eapply staged_synced; try done; apply Hq|done|].
    intros i j. simpl. destruct Hat as [Hrow Hprev _ _ _ _].
    apply cell_insert; [done|by eapply lookup_lt_Some]. }
  destruct (Hstep _ _ _ _ _ Hp Hs Hr1 Hc1 Ha) as (Hpa & Hsa & Hma & Hca).
  destruct (Hstep _ _ _ _ _ Hpa Hsa Hr2 Hc2 Hab) as (Hpab & Hsab & Hmab & Hcab).
  destruct (Hstep _ _ _ _ _ Hp Hs Hr2 Hc2 Hb) as (Hpb & Hsb & Hmb & Hcb).
  destruct (Hstep _ _ _ _ _ Hpb Hsb Hr1 Hc1 Hba) as (Hpba & Hsba & Hmba & Hcba).
  apply shaped_synced_ext; try done; [|congruence].
  apply grid9_ext; [apply Hpab|apply Hpba|].
  intros i j. rewrite Hcab, Hcba, Hca, Hcb.
  repeat case_decide; try done.
  exfalso. apply Hne. f_equal; lia.
Qed.

Lemma update_commute_witness :
  (run [(0, 2, 4); (1, 1, 2)] (loaded sample_grid)).2 =
  (run [(1, 1, 2); (0, 2, 4)] (loaded sample_grid)).2.
Proof.
  apply (update_commute (loaded sample_grid) (update 0 2 4 (loaded sample_grid)).2 _
           (update 1 1 2 (loaded sample_grid)).2 _ 0 2 4 1 1 2
           shaped_sample synced_sample);
    [lia|lia|lia|lia|intros [= ?]; lia|vm_compute; reflexivity..].
Defined.
